(** * Forced-alignment timestamps of quran-api: [src/quran/tasks.py]

    A shallow embedding of [generate_recitation_surah_timestamps_task]: the
    greedy forward-cursor matcher between the words of a surah and the word
    events returned by the forced-alignment service, the writes it makes and
    the way failures are absorbed. *)

From Stdlib Require Import ZArith QArith Qround String Ascii List Bool Arith Lia Lqa Sorted.
Import ListNotations.

Local Open Scope string_scope.
Local Open Scope nat_scope.

(** ** Python values and exceptions *)

Set Warnings "-register-all".

Module Py.

(** What [align_response.json()] can hand to the task.  A number, [int] or
    finite [float], is kept by its exact value: for a [float], the rational
    its double is.  A [dict] is kept as the list of its items (its keys are
    pairwise distinct). *)
Inductive value : Type :=
| VNone
| VBool (b : bool)
| VNum (q : Q)
| VNaN
| VInf (negative : bool)
| VStr (s : string)
| VList (l : list value)
| VDict (d : list (string * value)).

(** The exception classes the task can meet.  [HTTPError] is the one of
    [raise_for_status]; [RequestException] stands for whatever else
    [requests] raises: connection errors, timeouts, the decoding error of
    [json()]. *)
Inductive exn : Type :=
| KeyError (key : string)
| TypeError
| AttributeError
| ValueError
| OverflowError
| HTTPError (status : Z)
| RequestException (detail : string).

Inductive res (A : Type) : Type :=
| Ok (a : A)
| Raise (e : exn).
Arguments Ok {A} a.
Arguments Raise {A} e.

(** [bool(v)] *)
Definition truthy (v : value) : bool :=
  match v with
  | VNone => false
  | VBool b => b
  | VNum q => negb (Qeq_bool q 0)
  | VNaN => true
  | VInf _ => true
  | VStr s => negb (String.eqb s EmptyString)
  | VList l => match l with [] => false | _ :: _ => true end
  | VDict d => match d with [] => false | _ :: _ => true end
  end.

Fixpoint lookup (d : list (string * value)) (key : string) : option value :=
  match d with
  | [] => None
  | (k, v) :: d' => if String.eqb k key then Some v else lookup d' key
  end.

(** [v[key]] for a [str] key: only a dict can be subscripted that way. *)
Definition getitem (v : value) (key : string) : res value :=
  match v with
  | VDict d => match lookup d key with
               | Some x => Ok x
               | None => Raise (KeyError key)
               end
  | _ => Raise TypeError
  end.

(** [v.get(key)] *)
Definition get (v : value) (key : string) : res value :=
  match v with
  | VDict d => match lookup d key with
               | Some x => Ok x
               | None => Ok VNone
               end
  | _ => Raise AttributeError
  end.

(** [s != v] for a [str] s: a value that is not a [str] is never equal
    to one. *)
Definition str_ne (s : string) (v : value) : bool :=
  match v with
  | VStr s' => negb (String.eqb s s')
  | _ => true
  end.

(** [sep.join(l)] *)
Fixpoint join (sep : string) (l : list string) : string :=
  match l with
  | [] => EmptyString
  | [x] => x
  | x :: l' => x ++ sep ++ join sep l'
  end.

(** What a [for] statement draws from [v]. *)
Definition iterate (v : value) : res (list value) :=
  match v with
  | VList l => Ok l
  | VDict d => Ok (map (fun kv => VStr (fst kv)) d)
  | VStr s => Ok (map (fun c => VStr (String c EmptyString)) (list_ascii_of_string s))
  | _ => Raise TypeError
  end.

(** *** [datetime] *)

(** A [datetime.time]: microseconds since midnight. *)
Record time : Type := Time { us_of_day : Z }.

Definition time_le (a b : time) : Prop := (us_of_day a <= us_of_day b)%Z.

Definition us_per_second : Z := 1000000.
Definition us_per_day : Z := 86400 * us_per_second.

(** One microsecond past [datetime.max - datetime.min]: the 3652059 days of
    the years 1 to 9999. *)
Definition datetime_span_us : Z := 3652059 * us_per_day.

(** Rounding to the nearest integer, ties to the even one. *)
Definition round_half_even (q : Q) : Z :=
  let n := Qnum q in
  let d := Zpos (Qden q) in
  let fl := (n / d)%Z in
  let r := (n mod d)%Z in
  if (2 * r <? d)%Z then fl
  else if (d <? 2 * r)%Z then (fl + 1)%Z
  else if Z.even fl then fl else (fl + 1)%Z.

(** The integral part [modf] gives: towards zero. *)
Definition trunc (q : Q) : Z :=
  if (0 <=? Qnum q)%Z then Qfloor q else (- Qfloor (- q))%Z.

(** The doubles are the multiples of [2^-1074] with a mantissa of 53 bits;
    [double_grid] is the inverse of that spacing. *)
Definition double_grid : Z := 2 ^ 1074.

(** The power of two, in units of the grid, of the last place of a double
    whose magnitude has the integral part [t] on the grid: nothing is lost
    below [2^53]. *)
Definition ulp_exponent (t : Z) : Z := Z.max 0 (Z.log2 t - 52).

(** The double nearest to [x], ties to the even mantissa: what a floating
    point operation makes of its exact result.  The magnitudes met here stay
    below [10^6], far from the largest double. *)
Definition round_to_double (x : Q) : Q :=
  let n := (Z.abs (Qnum x) * double_grid)%Z in
  let s := ulp_exponent (n / Zpos (Qden x)) in
  let m := round_half_even (n # (Qden x * Z.to_pos (2 ^ s))) in
  (Z.sgn (Qnum x) * (m * 2 ^ s)) # Z.to_pos double_grid.

(** The microseconds of a number of seconds, as [timedelta] computes them:
    the whole seconds are exact; the fraction [modf] leaves is multiplied by
    [1e6] in floating point, and that double is rounded to the nearest
    integer, ties to the even one.  For an [int] the fraction is 0. *)
Definition seconds_to_us (q : Q) : Z :=
  let intpart := trunc q in
  let fracpart := (q - inject_Z intpart)%Q in
  (intpart * us_per_second
   + round_half_even (round_to_double (fracpart * inject_Z us_per_second)))%Z.

(** The microseconds of [timedelta(seconds=v)]. *)
Definition timedelta_us (v : value) : res Z :=
  match v with
  | VNum q => Ok (seconds_to_us q)
  | VBool b => Ok (if b then us_per_second else 0%Z)
  | VNaN => Raise ValueError
  | VInf _ => Raise OverflowError
  | _ => Raise TypeError
  end.

(** [(datetime.min + timedelta(seconds=v)).time()].  A delta beyond the
    magnitude a [timedelta] holds and a sum outside the years 1 to 9999 both
    raise [OverflowError]; the second range lies inside the first. *)
Definition time_of_seconds (v : value) : res time :=
  match timedelta_us v with
  | Ok us =>
      if ((0 <=? us) && (us <? datetime_span_us))%Z
      then Ok (Time (us mod us_per_day))
      else Raise OverflowError
  | Raise e => Raise e
  end.

End Py.
Import Py.

(** ** The models and the collaborators *)

Record Word : Type := { word_id : Z; word_text : string }.

Record RecitationSurahTimestamp : Type := {
  ts_recitation_surah : Z;
  ts_start_time : time;
  ts_end_time : option time;
  ts_word : Word
}.

Inductive message_type : Type := MESSAGE_TYPE_SUCCESS | MESSAGE_TYPE_FAILED.
Inductive notification_status : Type := STATUS_NOTHING.

Record Notification : Type := {
  n_user : Z;
  n_resource_controller : string;
  n_resource_action : string;
  n_resource_uuid : option string;
  n_status : notification_status;
  n_description : string;
  n_message : string;
  n_message_type : message_type
}.

(** The arguments of one [requests.post] call. *)
Record request : Type := {
  rq_url : string;
  rq_mp3_url : string;
  rq_text : string;
  rq_language : string;
  rq_headers : option string;
  rq_timeout : Z
}.

(** A response: its status and what [json()] gives on its body. *)
Record response : Type := {
  status_code : Z;
  json : res value
}.

Record Recitation : Type := {
  creator : option Z;
  uuid : option string
}.

Record Settings : Type := {
  FORCED_ALIGNMENT_API_URL : string;
  FORCED_ALIGNMENT_SECRET_KEY : option string
}.

(** What a run can change: the two tables it writes to and the calls it has
    sent to the alignment service.  [objects.create] appends a row; faults of
    the database itself are outside this model. *)
Record world : Type := {
  timestamps : list RecitationSurahTimestamp;
  notifications : list Notification;
  calls : list request
}.

(** ** Computations: state that survives an exception *)

Definition M (A : Type) : Type := world -> res A * world.

Definition ret {A} (a : A) : M A := fun w => (Ok a, w).

Definition bind {A B} (c : M A) (k : A -> M B) : M B :=
  fun w => match c w with
           | (Ok a, w') => k a w'
           | (Raise e, w') => (Raise e, w')
           end.

Definition lift {A} (r : res A) : M A := fun w => (r, w).

(** [try: c  except Exception as e: h e].  Nothing is rolled back. *)
Definition try_except {A} (c : M A) (h : exn -> M A) : M A :=
  fun w => match c w with
           | (Ok a, w') => (Ok a, w')
           | (Raise e, w') => h e w'
           end.

Declare Scope py_scope.
Delimit Scope py_scope with py.
Notation "'do' x <- c ; k" := (bind c (fun x => k))
  (at level 10, x name, c at level 100, k at level 200) : py_scope.
Notation "c ;; k" := (bind c (fun _ => k))
  (at level 100, k at level 200, right associativity) : py_scope.
Local Open Scope py_scope.

(** The rows a run adds to the store. *)
Definition insert_timestamps (rs : list RecitationSurahTimestamp) (w : world) : world :=
  {| timestamps := timestamps w ++ rs;
     notifications := notifications w;
     calls := calls w |}.

Definition insert_notifications (ns : list Notification) (w : world) : world :=
  {| timestamps := timestamps w;
     notifications := notifications w ++ ns;
     calls := calls w |}.

Definition log_call (rq : request) (w : world) : world :=
  {| timestamps := timestamps w;
     notifications := notifications w;
     calls := calls w ++ [rq] |}.

(** [RecitationSurahTimestamp.objects.create(...)] *)
Definition create_timestamp (r : RecitationSurahTimestamp) : M unit :=
  fun w => (Ok tt, insert_timestamps [r] w).

(** [Notification.objects.create(...)] *)
Definition create_notification (n : Notification) : M unit :=
  fun w => (Ok tt, insert_notifications [n] w).

(** ** The matcher (lines 181 to 205) *)

(** The [while] loop: [rest] is [words[word_idx:]]. *)
Fixpoint scan (rest : list Word) (word_idx : nat) (word_data : value) : res nat :=
  match rest with
  | [] => Ok word_idx
  | w :: rest' =>
      match getitem word_data "text" with
      | Ok t => if str_ne (word_text w) t
                then scan rest' (S word_idx) word_data
                else Ok word_idx
      | Raise e => Raise e
      end
  end.

(** [end_time]: the conditional expression of line 190. *)
Definition end_time_of (word_data : value) : res (option time) :=
  match get word_data "end" with
  | Ok e =>
      if truthy e
      then match getitem word_data "end" with
           | Ok e' => match time_of_seconds e' with
                      | Ok t => Ok (Some t)
                      | Raise x => Raise x
                      end
           | Raise x => Raise x
           end
      else Ok None
  | Raise x => Raise x
  end.

(** The body of the [for] loop; the result is the new [word_idx].
    [nth_error words idx] is [Some] exactly when [idx < len(words)]. *)
Definition loop_body (words : list Word) (recitation_surah : Z)
    (word_idx : nat) (word_data : value) : M nat :=
  do idx <- lift (scan (skipn word_idx words) word_idx word_data);
  match nth_error words idx with
  | Some word_obj =>
      do start <- lift (getitem word_data "start");
      do start_time <- lift (time_of_seconds start);
      do end_time <- lift (end_time_of word_data);
      create_timestamp {| ts_recitation_surah := recitation_surah;
                          ts_start_time := start_time;
                          ts_end_time := end_time;
                          ts_word := word_obj |} ;;
      ret (S idx)
  | None => ret idx
  end.

(** The [for] loop over the events, from the cursor [word_idx]. *)
Fixpoint matcher (words : list Word) (recitation_surah : Z)
    (events : list value) (word_idx : nat) : M nat :=
  match events with
  | [] => ret word_idx
  | word_data :: events' =>
      do i <- loop_body words recitation_surah word_idx word_data;
      matcher words recitation_surah events' i
  end.

(** ** The task (lines 137 to 260) *)

Section Task.

(** [str(e)]: the wording of an exception is the interpreter's. *)
Variable str : exn -> string.

(** What the alignment service answers to a call, or the exception
    [requests.post] raises instead. *)
Variable post : request -> res response.

Definition requests_post (rq : request) : M response :=
  fun w => (post rq, log_call rq w).

(** [raise_for_status] raises on the 4xx and 5xx statuses only. *)
Definition raise_for_status (r : response) : res unit :=
  if ((400 <=? status_code r) && (status_code r <? 600))%Z
  then Raise (HTTPError (status_code r))
  else Ok tt.

(** [getattr(recitation, "uuid", "")] inside an f-string *)
Definition uuid_str (recitation : Recitation) : string :=
  match uuid recitation with
  | Some u => u
  | None => EmptyString
  end.

Definition success_notification (recitation : Recitation) (user : Z) : Notification :=
  {| n_user := user;
     n_resource_controller := "recitations";
     n_resource_action := EmptyString;
     n_resource_uuid := uuid recitation;
     n_status := STATUS_NOTHING;
     n_description := "Recitation timestamps generated";
     n_message := "Recitation timestamps generated for recitation "
                  ++ uuid_str recitation ++ ".";
     n_message_type := MESSAGE_TYPE_SUCCESS |}.

Definition failure_notification (controller : string) (recitation : Recitation)
    (cause : string) (user : Z) : Notification :=
  {| n_user := user;
     n_resource_controller := controller;
     n_resource_action := EmptyString;
     n_resource_uuid := uuid recitation;
     n_status := STATUS_NOTHING;
     n_description := "Failed to generate recitation timestamps";
     n_message := "Failed to generate recitation timestamps for recitation "
                  ++ uuid_str recitation ++ ": " ++ cause;
     n_message_type := MESSAGE_TYPE_FAILED |}.

(** [if user: Notification.objects.create(user=user, ...)] *)
Definition notify (user : option Z) (n : Z -> Notification) : M unit :=
  match user with
  | Some u => create_notification (n u)
  | None => ret tt
  end.

(** [headers if headers else None]: the [Authorization] value, if any. *)
Definition headers_of (settings : Settings) : option string :=
  match FORCED_ALIGNMENT_SECRET_KEY settings with
  | Some key => if String.eqb key EmptyString then None else Some key
  | None => None
  end.

(** [bool(audio_url)] for a URL that is a [str] or [None]. *)
Definition url_truthy (audio_url : option string) : bool :=
  match audio_url with
  | Some u => negb (String.eqb u EmptyString)
  | None => false
  end.

Definition url_text (audio_url : option string) : string :=
  match audio_url with
  | Some u => u
  | None => EmptyString
  end.

(** The call of lines 167 to 176. *)
Definition align_request (settings : Settings) (audio_url : option string)
    (text : string) : request :=
  {| rq_url := FORCED_ALIGNMENT_API_URL settings ++ "/align";
     rq_mp3_url := url_text audio_url;
     rq_text := text;
     rq_language := "ar";
     rq_headers := headers_of settings;
     rq_timeout := 120 |}.

(** The task from line 158 on: [recitation_surah], [audio_url] and [words]
    are what lines 142 to 157 obtained from the store. *)
Definition generate_recitation_surah_timestamps_task
    (settings : Settings) (recitation : Recitation) (recitation_surah : Z)
    (audio_url : option string) (words : list Word) : M string :=
  let text := join " " (map word_text words) in
  let user := creator recitation in
  try_except
    (if url_truthy audio_url && negb (String.eqb text EmptyString)
     then
       try_except
         (do align_response <- requests_post (align_request settings audio_url text);
          lift (raise_for_status align_response) ;;
          do alignment_data <- lift (json align_response);
          do events <- lift (iterate alignment_data);
          matcher words recitation_surah events 0 ;;
          notify user (success_notification recitation) ;;
          ret "timestamps generated")
         (fun e =>
            notify user (failure_notification "quran.generate_recitation_timestamps"
                           recitation (str e)) ;;
            ret ("Failed to generate timestamps: " ++ str e))
     else
       (notify user (failure_notification "quran.tasks.generate_recitation_timestamps"
                       recitation "missing audio_url or text") ;;
        ret "Failed: missing audio_url or text"))
    (fun e =>
       notify user (failure_notification "quran.tasks.generate_recitation_timestamps"
                      recitation (str e)) ;;
       ret ("Failed to generate timestamps: " ++ str e)).

End Task.

(** ** Observations on a run *)

(** The records a run of the loop adds to those already stored. *)
Definition emitted (words : list Word) (recitation_surah : Z)
    (events : list value) (w : world) : list RecitationSurahTimestamp :=
  skipn (length (timestamps w))
        (timestamps (snd (matcher words recitation_surah events 0 w))).

(** The values [word_idx] has, iteration after iteration: the one the
    [while] loop leaves, then the one the iteration ends with; the trace
    stops at the iteration that raises, if one does. *)
Fixpoint cursor_trace (words : list Word) (recitation_surah : Z)
    (events : list value) (word_idx : nat) (w : world) : list nat :=
  match events with
  | [] => []
  | word_data :: events' =>
      match scan (skipn word_idx words) word_idx word_data with
      | Ok idx =>
          idx :: match loop_body words recitation_surah word_idx word_data w with
                 | (Ok i, w') => i :: cursor_trace words recitation_surah events' i w'
                 | (Raise _, _) => []
                 end
      | Raise _ => []
      end
  end.

(** [ascending lo l]: [l] is strictly increasing and starts at [lo] or above. *)
Fixpoint ascending (lo : nat) (l : list nat) : Prop :=
  match l with
  | [] => True
  | x :: l' => lo <= x /\ ascending (S x) l'
  end.

(** The record [r] was created from the word at index [fst m] and the event
    at index [snd m]. *)
Definition binds (words : list Word) (recitation_surah : Z) (events : list value)
    (m : nat * nat) (r : RecitationSurahTimestamp) : Prop :=
  exists word_data start,
    nth_error events (snd m) = Some word_data /\
    nth_error words (fst m) = Some (ts_word r) /\
    ts_recitation_surah r = recitation_surah /\
    getitem word_data "text" = Ok (VStr (word_text (ts_word r))) /\
    getitem word_data "start" = Ok start /\
    time_of_seconds start = Ok (ts_start_time r) /\
    end_time_of word_data = Ok (ts_end_time r).

(** The same pair of indices once one more event stands in front. *)
Definition shift (m : nat * nat) : nat * nat := (fst m, S (snd m)).

(** ** Typed events

    The events of the service's contract: a text, a start offset and an
    optional end offset, in seconds. *)
Record TimedEvent : Type := {
  ev_text : string;
  ev_start : Q;
  ev_end : option Q
}.

Definition event_json (e : TimedEvent) : value :=
  VDict (("text", VStr (ev_text e)) :: ("start", VNum (ev_start e)) ::
         match ev_end e with
         | Some q => [("end", VNum q)]
         | None => []
         end).

(** An offset that [datetime.min + timedelta(seconds=q)] can hold. *)
Definition representable (q : Q) : Prop :=
  (0 <= seconds_to_us q < datetime_span_us)%Z.

Definition time_of_offset (q : Q) : time :=
  Time (seconds_to_us q mod us_per_day).

(** A typed event whose offsets the task can turn into times. *)
Definition well_timed (e : TimedEvent) : Prop :=
  representable (ev_start e) /\
  match ev_end e with
  | Some q => representable q
  | None => True
  end.

(** The record line 198 creates for a word and a typed event. *)
Definition record_of (recitation_surah : Z) (p : Word * TimedEvent)
  : RecitationSurahTimestamp :=
  {| ts_recitation_surah := recitation_surah;
     ts_start_time := time_of_offset (ev_start (snd p));
     ts_end_time := match ev_end (snd p) with
                    | Some q => if Qeq_bool q 0 then None else Some (time_of_offset q)
                    | None => None
                    end;
     ts_word := fst p |}.

(** A start offset that falls, to the microsecond, within the first day. *)
Definition within_a_day (q : Q) : Prop :=
  (0 <= seconds_to_us q < us_per_day)%Z.

(** The notification an outcome leaves: one when the recitation has a
    creator, none otherwise. *)
Definition notified (user : option Z) (n : Z -> Notification) : list Notification :=
  match user with
  | Some u => [n u]
  | None => []
  end.

(** ** Sample data *)

Definition no_rows : world := {| timestamps := []; notifications := []; calls := [] |}.

Definition word (id : Z) (text : string) : Word := {| word_id := id; word_text := text |}.

Definition event (text : string) (start : Q) (end_ : option Q) : TimedEvent :=
  {| ev_text := text; ev_start := start; ev_end := end_ |}.

(** ** The rest of the run *)

(** The events a run obtains from the service: the answer to the call, its
    status test, the decoding of its body (lines 167 to 178) and the
    iteration line 182 starts. *)
Definition alignment_events (post : request -> res response) (rq : request)
  : res (list value) :=
  match post rq with
  | Ok align_response =>
      match raise_for_status align_response with
      | Ok _ =>
          match json align_response with
          | Ok alignment_data => iterate alignment_data
          | Raise e => Raise e
          end
      | Raise e => Raise e
      end
  | Raise e => Raise e
  end.

(** [ts] are found among [ws], in order. *)
Inductive embeds : list string -> list string -> Prop :=
| embeds_nil (ws : list string) : embeds [] ws
| embeds_here (t : string) (ts ws : list string) :
    embeds ts ws -> embeds (t :: ts) (t :: ws)
| embeds_later (ts : list string) (w : string) (ws : list string) :
    embeds ts ws -> embeds ts (w :: ws).

(** A time of day. *)
Definition in_a_day (t : time) : Prop := (0 <= us_of_day t < us_per_day)%Z.

(** The records a run of the task adds for a given answer of the service. *)
Definition added_by_run (post : request -> res response) (settings : Settings)
    (rs : Z) (audio_url : option string) (words : list Word)
  : list RecitationSurahTimestamp :=
  let text := join " " (map word_text words) in
  if url_truthy audio_url && negb (String.eqb text EmptyString)
  then match alignment_events post (align_request settings audio_url text) with
       | Ok events => emitted words rs events no_rows
       | Raise _ => []
       end
  else [].

(** [first_fits words events lo k ms]: the pairs [ms] bind the events from
    the index [k] on, one after the other and without a gap, each to the
    first word, from the index [lo] on and past the word of the pair before,
    that the [while] loop stops at: every word it passes over has a text that
    differs from the text of the event. *)
Fixpoint first_fits (words : list Word) (events : list value) (lo k : nat)
    (ms : list (nat * nat)) : Prop :=
  match ms with
  | [] => True
  | m :: ms' =>
      snd m = k /\ lo <= fst m /\
      (forall j wj, lo <= j < fst m -> nth_error words j = Some wj ->
         exists wd t, nth_error events k = Some wd /\
                      getitem wd "text" = Ok t /\
                      str_ne (word_text wj) t = true) /\
      first_fits words events (S (fst m)) (S k) ms'
  end.

(** ** The association of a recitation and a surah (lines 141 to 154) *)

(** The audio file handed to the task: its key and what
    [get_absolute_url()] gives. *)
Record File : Type := { file_pk : Z; get_absolute_url : option string }.

Record RecitationSurah : Type := {
  rs_pk : Z;
  rs_recitation : Z;
  rs_surah : Z;
  rs_file_id : option Z
}.

Definition for_pair (recitation surah : Z) (r : RecitationSurah) : bool :=
  ((rs_recitation r =? recitation) && (rs_surah r =? surah))%Z.

(** What [objects.get_or_create] gives: a row, whether it was created, and
    the table after it; or the exception [get] raises on several rows. *)
Inductive got : Type :=
| Got (r : RecitationSurah) (created : bool) (table : list RecitationSurah)
| MultipleObjectsReturned.

(** [RecitationSurah.objects.get_or_create(recitation=..., surah=...,
    defaults={"file": file_obj})]; [new_pk] is the key the database gives to
    a new row. *)
Definition get_or_create (new_pk : Z) (table : list RecitationSurah)
    (recitation surah : Z) (file_obj : File) : got :=
  match filter (for_pair recitation surah) table with
  | [] =>
      let r := {| rs_pk := new_pk; rs_recitation := recitation; rs_surah := surah;
                  rs_file_id := Some (file_pk file_obj) |} in
      Got r true (table ++ [r])
  | [r] => Got r false table
  | _ :: _ :: _ => MultipleObjectsReturned
  end.

(** [bool(recitation_surah.file_id)] *)
Definition file_id_truthy (f : option Z) : bool :=
  match f with
  | Some z => negb (z =? 0)%Z
  | None => false
  end.

Definition with_file (file : Z) (r : RecitationSurah) : RecitationSurah :=
  {| rs_pk := rs_pk r; rs_recitation := rs_recitation r; rs_surah := rs_surah r;
     rs_file_id := Some file |}.

(** [recitation_surah.save(update_fields=["file"])]: the file of the row
    with the key [pk] becomes [file]. *)
Definition save_file (pk file : Z) (table : list RecitationSurah)
  : list RecitationSurah :=
  map (fun x => if (rs_pk x =? pk)%Z then with_file file x else x) table.

(** Lines 142 to 151: the association the run works with and the table it
    leaves; [None] when line 142 raises. *)
Definition prepare (new_pk : Z) (table : list RecitationSurah)
    (recitation surah : Z) (file_obj : File)
  : option (RecitationSurah * list RecitationSurah) :=
  match get_or_create new_pk table recitation surah file_obj with
  | Got recitation_surah created table' =>
      if negb created && negb (file_id_truthy (rs_file_id recitation_surah))
      then Some (with_file (file_pk file_obj) recitation_surah,
                 save_file (rs_pk recitation_surah) (file_pk file_obj) table')
      else Some (recitation_surah, table')
  | MultipleObjectsReturned => None
  end.

(** The task from its first line, given the words line 157 reads: the text
    returned, or [None] when line 142 raises, which nothing catches. *)
Definition task_from_the_start (str : exn -> string)
    (post : request -> res response) (settings : Settings) (new_pk : Z)
    (recitation_pk surah_pk : Z) (recitation : Recitation) (file_obj : File)
    (words : list Word) (table : list RecitationSurah) (w : world)
  : option (res string) * list RecitationSurah * world :=
  match prepare new_pk table recitation_pk surah_pk file_obj with
  | Some (recitation_surah, table') =>
      let (r, w') := generate_recitation_surah_timestamps_task str post settings
                       recitation (rs_pk recitation_surah)
                       (get_absolute_url file_obj) words w in
      (Some r, table', w')
  | None => (None, table, w)
  end.

(** ** [import_translation_task] (lines 81 to 135) *)

(** A block under [transaction.atomic()]: what it wrote is undone when it
    raises. *)
Definition atomic {S A : Type} (c : S -> res A * S) : S -> res A * S :=
  fun s => match c s with
           | (Ok a, s') => (Ok a, s')
           | (Raise e, _) => (Raise e, s)
           end.

Record Translation : Type := {
  tr_id : Z;
  tr_creator_id : Z;
  tr_mushaf_id : Z;
  tr_translator_id : Z;
  tr_source : value;
  tr_status : string;
  tr_language : value
}.

Record AyahTranslation : Type := {
  at_creator_id : Z;
  at_translation_id : Z;
  at_ayah_id : Z;
  at_text : value;
  at_bismillah : value
}.

(** The tables the import of a translation writes to. *)
Record library : Type := {
  translations : list Translation;
  ayah_translations : list AyahTranslation;
  import_notifications : list Notification
}.

Section ImportTranslation.

(** [ayah_lookup.get((surah_number, ayah_number))] on the dictionary of
    line 97: the key of the ayah, [None] when there is none, or the exception
    a key that cannot be hashed raises. *)
Variable ayah_lookup : value -> value -> res (option Z).

Variables user_id translation_id : Z.

(** Lines 109 to 122: the row for one entry, if its ayah is known. *)
Definition translate_ayah (default_bismillah surah_number ayah_data : value)
  : res (option AyahTranslation) :=
  match getitem ayah_data "number" with
  | Ok ayah_number =>
      match ayah_lookup surah_number ayah_number with
      | Ok (Some ayah_id) =>
          match getitem ayah_data "text" with
          | Ok text =>
              match get ayah_data "bismillah_text" with
              | Ok own =>
                  Ok (Some {| at_creator_id := user_id;
                              at_translation_id := translation_id;
                              at_ayah_id := ayah_id;
                              at_text := text;
                              at_bismillah := if truthy own then own
                                              else default_bismillah |})
              | Raise e => Raise e
              end
          | Raise e => Raise e
          end
      | Ok None => Ok None
      | Raise e => Raise e
      end
  | Raise e => Raise e
  end.

(** The inner [for] loop: the rows appended for the entries of one surah. *)
Fixpoint translate_ayahs (default_bismillah surah_number : value)
    (entries : list value) : res (list AyahTranslation) :=
  match entries with
  | [] => Ok []
  | ayah_data :: entries' =>
      match translate_ayah default_bismillah surah_number ayah_data with
      | Ok row =>
          match translate_ayahs default_bismillah surah_number entries' with
          | Ok rows => Ok (match row with
                           | Some r => r :: rows
                           | None => rows
                           end)
          | Raise e => Raise e
          end
      | Raise e => Raise e
      end
  end.

(** Lines 107 and 108 for one [surah_data]. *)
Definition translate_surah (default_bismillah surah_data : value)
  : res (list AyahTranslation) :=
  match getitem surah_data "number" with
  | Ok surah_number =>
      match getitem surah_data "ayah_translations" with
      | Ok entries =>
          match iterate entries with
          | Ok l => translate_ayahs default_bismillah surah_number l
          | Raise e => Raise e
          end
      | Raise e => Raise e
      end
  | Raise e => Raise e
  end.

(** The outer [for] loop. *)
Fixpoint translate_surahs (default_bismillah : value) (surahs : list value)
  : res (list AyahTranslation) :=
  match surahs with
  | [] => Ok []
  | surah_data :: surahs' =>
      match translate_surah default_bismillah surah_data with
      | Ok rows =>
          match translate_surahs default_bismillah surahs' with
          | Ok rows' => Ok (rows ++ rows')%list
          | Raise e => Raise e
          end
      | Raise e => Raise e
      end
  end.

(** Lines 102 to 122: the list handed to [bulk_create]. *)
Definition collect_ayah_translations (translation_data : value)
  : res (list AyahTranslation) :=
  match get translation_data "bismillah_text" with
  | Ok default_bismillah =>
      match getitem translation_data "surahs" with
      | Ok surahs =>
          match iterate surahs with
          | Ok l => translate_surahs default_bismillah l
          | Raise e => Raise e
          end
      | Raise e => Raise e
      end
  | Raise e => Raise e
  end.

(** [ayah_data] is an entry of the data: one of the [ayah_translations] of
    one of its [surahs], whose number is [surah_number]. *)
Definition entry_of (translation_data surah_number ayah_data : value) : Prop :=
  exists surahs surah_list surah_data entries entry_list,
    getitem translation_data "surahs" = Ok surahs /\
    iterate surahs = Ok surah_list /\
    In surah_data surah_list /\
    getitem surah_data "number" = Ok surah_number /\
    getitem surah_data "ayah_translations" = Ok entries /\
    iterate entries = Ok entry_list /\
    In ayah_data entry_list.

(** The row is the one of the entry [ayah_data]: it is for the user and the
    translation of the run, for the ayah the dictionary gives for the number
    of the surah and the number of the entry, with the text of the entry, and
    with the bismillah of the entry when that is truthy and the default
    otherwise. *)
Definition row_of_entry (default_bismillah surah_number ayah_data : value)
    (row : AyahTranslation) : Prop :=
  at_creator_id row = user_id /\
  at_translation_id row = translation_id /\
  (exists ayah_number,
      getitem ayah_data "number" = Ok ayah_number /\
      ayah_lookup surah_number ayah_number = Ok (Some (at_ayah_id row))) /\
  getitem ayah_data "text" = Ok (at_text row) /\
  (exists own,
      get ayah_data "bismillah_text" = Ok own /\
      ((truthy own = true /\ at_bismillah row = own) \/
       (truthy own = false /\ at_bismillah row = default_bismillah))).

Variables translator_id mushaf_id : Z.

(** The key the database gives to the translation row. *)
Variable translation_uuid : string.

(** The task from line 88 on, given the user, the translator and the mushaf
    lines 83 to 87 found. *)
Definition import_translation_task (translation_data : value)
  : library -> res string * library :=
  fun s =>
    match atomic
            (fun s0 =>
               match getitem translation_data "source" with
               | Ok source =>
                   match getitem translation_data "language" with
                   | Ok language =>
                       let translation :=
                         {| tr_id := translation_id;
                            tr_creator_id := user_id;
                            tr_mushaf_id := mushaf_id;
                            tr_translator_id := translator_id;
                            tr_source := source;
                            tr_status := "published";
                            tr_language := language |} in
                       let s1 := {| translations := translations s0 ++ [translation];
                                    ayah_translations := ayah_translations s0;
                                    import_notifications := import_notifications s0 |} in
                       match collect_ayah_translations translation_data with
                       | Ok rows =>
                           (Ok tt,
                            {| translations := translations s1;
                               ayah_translations := ayah_translations s1 ++ rows;
                               import_notifications := import_notifications s1 |})
                       | Raise e => (Raise e, s1)
                       end
                   | Raise e => (Raise e, s0)
                   end
               | Raise e => (Raise e, s0)
               end) s with
    | (Ok _, s') =>
        (Ok ("Translation " ++ translation_uuid ++ " imported successfully."),
         {| translations := translations s';
            ayah_translations := ayah_translations s';
            import_notifications :=
              import_notifications s' ++
              [{| n_user := user_id;
                  n_resource_controller := "translations";
                  n_resource_action := "import";
                  n_resource_uuid := Some translation_uuid;
                  n_status := STATUS_NOTHING;
                  n_description := "Translation import complete";
                  n_message := "Translation " ++ translation_uuid
                               ++ " imported successfully.";
                  n_message_type := MESSAGE_TYPE_SUCCESS |}] |})
    | (Raise e, s') => (Raise e, s')
    end.

End ImportTranslation.

(** ** [import_mushaf_task] (lines 17 to 79) *)

(** The next step when [r] did not raise. *)
Definition and_then {A B : Type} (r : res A) (k : A -> res B) : res B :=
  match r with
  | Ok a => k a
  | Raise e => Raise e
  end.

Notation "'ok' x <- r ; k" := (and_then r (fun x => k))
  (at level 10, x name, r at level 100, k at level 200) : py_scope.

(** A loop that builds one object per item, up to the first item that
    raises. *)
Fixpoint each {A B : Type} (f : A -> res B) (l : list A) : res (list B) :=
  match l with
  | [] => Ok []
  | a :: l' =>
      ok b <- f a;
      ok bs <- each f l';
      Ok (b :: bs)
  end.

(** A byte that continues a character in UTF-8. *)
Definition continuation (c : ascii) : bool :=
  match c with
  | Ascii _ _ _ _ _ _ b6 b7 => b7 && negb b6
  end.

(** [len(s)]: the characters of a [str] kept as its UTF-8 bytes. *)
Fixpoint py_len (s : string) : nat :=
  match s with
  | EmptyString => 0
  | String c s' => (if continuation c then 0 else 1) + py_len s'
  end.

(** ["words" in ayah] *)
Definition has_words (ayah : value) : res bool :=
  match ayah with
  | VDict d => Ok (match lookup d "words" with Some _ => true | None => false end)
  | VStr s => Ok (match index 0 "words" s with Some _ => true | None => false end)
  | VList l => Ok (existsb (fun v => negb (str_ne "words" v)) l)
  | _ => Raise TypeError
  end.

(** What [join] asks of its items: each one a [str]. *)
Fixpoint all_str (l : list value) : res (list string) :=
  match l with
  | [] => Ok []
  | VStr s :: l' => ok ss <- all_str l'; Ok (s :: ss)
  | _ :: _ => Raise TypeError
  end.

(** [' '.join(word["text"] for word in words)]: the generator is run to its
    end before the items are looked at. *)
Definition words_text (words : value) : res string :=
  ok l <- iterate words;
  ok texts <- each (fun word => getitem word "text") l;
  ok strs <- all_str texts;
  Ok (join " " strs).

(** Lines 45 to 48. *)
Definition ayah_length (ayah : value) : res nat :=
  ok present <- has_words ayah;
  if present
  then ok words <- getitem ayah "words";
       ok text <- words_text words;
       Ok (py_len text)
  else Ok 0.

Record MushafRow : Type := {
  m_pk : Z;
  m_creator_id : Z;
  m_name : value;
  m_short_name : value;
  m_source : value
}.

Record SurahRow : Type := {
  s_creator_id : Z;
  s_mushaf : Z;
  s_number : value;
  s_name : value;
  s_period : value
}.

Record AyahRow : Type := {
  a_creator_id : Z;
  a_surah : Z;
  a_number : value;
  a_sajdah : value;
  a_is_bismillah : value;
  a_bismillah_text : value;
  a_length : nat
}.

Record WordRow : Type := {
  w_ayah : Z;
  w_text : value;
  w_creator_id : Z
}.

(** The tables the import of a mushaf writes to. *)
Record mushaf_store : Type := {
  mushafs : list MushafRow;
  surahs : list SurahRow;
  ayahs : list AyahRow;
  word_rows : list WordRow;
  mushaf_notifications : list Notification
}.

Section ImportMushaf.

Variable user_id : Z.

(** The key and the uuid the database gives to the mushaf row. *)
Variable mushaf_pk : Z.
Variable mushaf_uuid : string.

(** [surahs_by_number[number]] on the dictionary line 39 builds from the
    surahs just stored, and
    [ayahs_by_surah_and_number[(surah_number, number)]] on the one line 60
    builds from the ayahs: the key of the row found, or the exception. *)
Variable surahs_by_number : list SurahRow -> value -> res Z.
Variable ayahs_by_surah_and_number : list AyahRow -> value -> value -> res Z.

(** [mushaf.name] inside an f-string. *)
Variable format : value -> string.

(** Lines 31 to 37. *)
Definition make_surah (surah_data : value) : res SurahRow :=
  ok number <- getitem surah_data "number";
  ok name <- getitem surah_data "name";
  ok period <- getitem surah_data "period";
  Ok {| s_creator_id := user_id; s_mushaf := mushaf_pk;
        s_number := number; s_name := name; s_period := period |}.

(** Lines 44 to 58. *)
Definition make_ayah (surah : Z) (ayah : value) : res AyahRow :=
  ok length <- ayah_length ayah;
  ok number <- getitem ayah "number";
  ok sajdah <- getitem ayah "sajdah";
  ok is_bismillah <- getitem ayah "is_bismillah";
  ok bismillah_text <- getitem ayah "bismillah_text";
  Ok {| a_creator_id := user_id; a_surah := surah; a_number := number;
        a_sajdah := sajdah; a_is_bismillah := is_bismillah;
        a_bismillah_text := bismillah_text; a_length := length |}.

(** Lines 42 to 58 for one [surah_data]. *)
Definition surah_ayahs (stored : list SurahRow) (surah_data : value)
  : res (list AyahRow) :=
  ok number <- getitem surah_data "number";
  ok surah <- surahs_by_number stored number;
  ok entries <- getitem surah_data "ayahs";
  ok l <- iterate entries;
  each (make_ayah surah) l.

(** Lines 64 to 66 for one [ayah]. *)
Definition ayah_words (stored : list AyahRow) (surah_data ayah : value)
  : res (list WordRow) :=
  ok surah_number <- getitem surah_data "number";
  ok number <- getitem ayah "number";
  ok ayah_obj <- ayahs_by_surah_and_number stored surah_number number;
  ok words <- getitem ayah "words";
  ok l <- iterate words;
  each (fun word => ok text <- getitem word "text";
                    Ok {| w_ayah := ayah_obj; w_text := text;
                          w_creator_id := user_id |}) l.

(** Lines 63 to 66 for one [surah_data]. *)
Definition surah_words (stored : list AyahRow) (surah_data : value)
  : res (list WordRow) :=
  ok entries <- getitem surah_data "ayahs";
  ok l <- iterate entries;
  ok rows <- each (ayah_words stored surah_data) l;
  Ok (concat rows).

(** The three loops over [quran_data["surahs"]]. *)
Definition surah_objs_of (quran_data : value) : res (list SurahRow) :=
  ok entries <- getitem quran_data "surahs";
  ok l <- iterate entries;
  each make_surah l.

Definition ayah_objs_of (stored : list SurahRow) (quran_data : value)
  : res (list AyahRow) :=
  ok entries <- getitem quran_data "surahs";
  ok l <- iterate entries;
  ok rows <- each (surah_ayahs stored) l;
  Ok (concat rows).

Definition word_objs_of (stored : list AyahRow) (quran_data : value)
  : res (list WordRow) :=
  ok entries <- getitem quran_data "surahs";
  ok l <- iterate entries;
  ok rows <- each (surah_words stored) l;
  Ok (concat rows).

(** Lines 22 to 67: the block under [transaction.atomic()]. *)
Definition import_block (quran_data mushaf_data : value)
  : mushaf_store -> res MushafRow * mushaf_store :=
  fun s0 =>
    match (ok name <- getitem mushaf_data "name";
           ok short_name <- getitem mushaf_data "short_name";
           ok source <- getitem mushaf_data "source";
           Ok {| m_pk := mushaf_pk; m_creator_id := user_id; m_name := name;
                 m_short_name := short_name; m_source := source |}) with
    | Raise e => (Raise e, s0)
    | Ok mushaf =>
        let s1 := {| mushafs := mushafs s0 ++ [mushaf]; surahs := surahs s0;
                     ayahs := ayahs s0; word_rows := word_rows s0;
                     mushaf_notifications := mushaf_notifications s0 |} in
        match surah_objs_of quran_data with
        | Raise e => (Raise e, s1)
        | Ok surah_objs =>
            let s2 := {| mushafs := mushafs s1; surahs := surahs s1 ++ surah_objs;
                         ayahs := ayahs s1; word_rows := word_rows s1;
                         mushaf_notifications := mushaf_notifications s1 |} in
            match ayah_objs_of surah_objs quran_data with
            | Raise e => (Raise e, s2)
            | Ok ayah_objs =>
                let s3 := {| mushafs := mushafs s2; surahs := surahs s2;
                             ayahs := ayahs s2 ++ ayah_objs;
                             word_rows := word_rows s2;
                             mushaf_notifications := mushaf_notifications s2 |} in
                match word_objs_of ayah_objs quran_data with
                | Raise e => (Raise e, s3)
                | Ok word_objs =>
                    (Ok mushaf,
                     {| mushafs := mushafs s3; surahs := surahs s3;
                        ayahs := ayahs s3;
                        word_rows := word_rows s3 ++ word_objs;
                        mushaf_notifications := mushaf_notifications s3 |})
                end
            end
        end
    end.

(** The task from line 21 on, for a user line 20 found. *)
Definition import_mushaf_task (quran_data : value)
  : mushaf_store -> res string * mushaf_store :=
  fun s =>
    match getitem quran_data "mushaf" with
    | Raise e => (Raise e, s)
    | Ok mushaf_data =>
        match atomic (import_block quran_data mushaf_data) s with
        | (Raise e, s') => (Raise e, s')
        | (Ok mushaf, s') =>
            (Ok ("Mushaf " ++ format (m_name mushaf) ++ " imported successfully."),
             {| mushafs := mushafs s'; surahs := surahs s'; ayahs := ayahs s';
                word_rows := word_rows s';
                mushaf_notifications :=
                  mushaf_notifications s' ++
                  [{| n_user := user_id;
                      n_resource_controller := "mushafs";
                      n_resource_action := "import";
                      n_resource_uuid := Some mushaf_uuid;
                      n_status := STATUS_NOTHING;
                      n_description := "Mushaf import complete";
                      n_message := "Mushaf " ++ String "034" (format (m_name mushaf))
                                   ++ String "034" " imported successfully.";
                      n_message_type := MESSAGE_TYPE_SUCCESS |}] |})
        end
    end.

End ImportMushaf.

(** ** Lists of indices *)

Lemma ascending_weaken (l : list nat) :
  forall lo lo', lo' <= lo -> ascending lo l -> ascending lo' l.
Proof.
  destruct l as [|x l]; simpl; intros lo lo' Hle H; [exact I|].
  destruct H as [H1 H2]. split; [lia | exact H2].
Qed.

Lemma ascending_map_S (l : list nat) :
  forall lo, ascending lo l -> ascending (S lo) (map S l).
Proof.
  induction l as [|x l IH]; simpl; intros lo H; [exact I|].
  destruct H as [H1 H2]. split; [lia | now apply IH].
Qed.

Lemma ascending_lower (l : list nat) :
  forall lo, ascending lo l -> Forall (fun x => lo <= x) l.
Proof.
  induction l as [|x l IH]; simpl; intros lo H; constructor.
  - tauto.
  - destruct H as [H1 H2]. apply IH in H2.
    eapply Forall_impl; [|exact H2]. simpl. intros; lia.
Qed.

Lemma ascending_length (l : list nat) :
  forall lo hi, ascending lo l -> Forall (fun x => x < hi) l -> length l <= hi - lo.
Proof.
  induction l as [|x l IH]; simpl; intros lo hi H Hhi; [lia|].
  destruct H as [H1 H2]. inversion Hhi as [|? ? Hx Hl]; subst.
  specialize (IH (S x) hi H2 Hl). lia.
Qed.

Lemma ascending_sorted (l : list nat) :
  forall lo, ascending lo l -> StronglySorted lt l.
Proof.
  induction l as [|x l IH]; simpl; intros lo H; constructor.
  - destruct H as [_ H]. now apply IH in H.
  - destruct H as [_ H]. apply ascending_lower in H.
    eapply Forall_impl; [|exact H]. simpl. intros; lia.
Qed.

Lemma sorted_lt_NoDup (l : list nat) : StronglySorted lt l -> NoDup l.
Proof.
  induction 1 as [|x l Hs IH Hall]; constructor; [|exact IH].
  intro Hin. rewrite Forall_forall in Hall. specialize (Hall x Hin). lia.
Qed.

(** ** The [while] loop *)

Lemma scan_bounds (rest : list Word) (wd : value) :
  forall i j, scan rest i wd = Ok j -> i <= j <= i + length rest.
Proof.
  induction rest as [|w rest IH]; simpl; intros i j H.
  - injection H as <-. lia.
  - destruct (getitem wd "text") as [t|e]; [|discriminate].
    destruct (str_ne (word_text w) t).
    + apply IH in H. lia.
    + injection H as <-. lia.
Qed.

Lemma scan_stops_on_match (rest : list Word) (wd : value) :
  forall i j w, scan rest i wd = Ok j -> nth_error rest (j - i) = Some w ->
    getitem wd "text" = Ok (VStr (word_text w)).
Proof.
  induction rest as [|w0 rest IH]; simpl; intros i j w H Hn.
  - destruct (j - i); discriminate.
  - destruct (getitem wd "text") as [t|e] eqn:Ht; [|discriminate].
    destruct (str_ne (word_text w0) t) eqn:Hne.
    + pose proof (scan_bounds _ _ _ _ H) as Hb.
      replace (j - i) with (S (j - S i)) in Hn by lia. simpl in Hn.
      exact (IH _ _ _ H Hn).
    + injection H as <-. rewrite Nat.sub_diag in Hn. simpl in Hn.
      injection Hn as <-. destruct t; simpl in Hne; try discriminate.
      apply negb_false_iff, String.eqb_eq in Hne. now subst.
Qed.

Lemma scan_no_match (rest : list Word) (wd t : value) :
  getitem wd "text" = Ok t ->
  Forall (fun w => str_ne (word_text w) t = true) rest ->
  forall i, scan rest i wd = Ok (i + length rest).
Proof.
  intros Ht Hall. induction Hall as [|w rest Hw _ IH]; simpl; intros i.
  - f_equal. lia.
  - rewrite Ht, Hw, IH. f_equal. lia.
Qed.

Lemma nth_error_skipn {A} (l : list A) :
  forall i k, nth_error (skipn i l) k = nth_error l (i + k).
Proof.
  induction l as [|x l IH]; intros i k.
  - rewrite skipn_nil, !nth_error_nil. reflexivity.
  - destruct i; simpl; [reflexivity | apply IH].
Qed.

(** ** One iteration of the [for] loop *)

Lemma insert_timestamps_nil (w : world) : insert_timestamps [] w = w.
Proof. destruct w; unfold insert_timestamps; simpl. now rewrite app_nil_r. Qed.

Lemma insert_timestamps_twice (a b : list RecitationSurahTimestamp) (w : world) :
  insert_timestamps b (insert_timestamps a w) = insert_timestamps (a ++ b) w.
Proof. unfold insert_timestamps; simpl. now rewrite app_assoc. Qed.

(** An iteration drops its event, or binds it to one word at or after the
    cursor, or raises before anything is written. *)
Lemma loop_body_cases (words : list Word) (rs : Z) (i : nat) (wd : value) (w : world) :
  (exists j, i <= j /\ nth_error words j = None /\
             loop_body words rs i wd w = (Ok j, w))
  \/ (exists idx r, i <= idx /\ binds words rs [wd] (idx, 0) r /\
                    loop_body words rs i wd w = (Ok (S idx), insert_timestamps [r] w))
  \/ (exists e, loop_body words rs i wd w = (Raise e, w)).
Proof.
  unfold loop_body, bind, lift.
  destruct (scan (skipn i words) i wd) as [idx|e] eqn:Hs; [|right; right; eauto].
  pose proof (scan_bounds _ _ _ _ Hs) as Hb.
  destruct (nth_error words idx) as [word_obj|] eqn:Hn.
  - destruct (getitem wd "start") as [start|e] eqn:Hst; [|right; right; eauto].
    destruct (time_of_seconds start) as [t|e] eqn:Ht; [|right; right; eauto].
    destruct (end_time_of wd) as [t'|e] eqn:He; [|right; right; eauto].
    right; left. eexists idx, _. split; [lia|]. split; [|reflexivity].
    exists wd, start. simpl. repeat split; try assumption.
    apply (scan_stops_on_match _ _ _ _ _ Hs).
    rewrite nth_error_skipn. replace (i + (idx - i)) with idx by lia. exact Hn.
  - left. exists idx. unfold ret. repeat split; [lia | assumption].
Qed.

Lemma loop_body_advances (words : list Word) (rs : Z) (i j : nat) (wd : value)
    (w w' : world) :
  loop_body words rs i wd w = (Ok j, w') -> i <= j.
Proof.
  intro H.
  destruct (loop_body_cases words rs i wd w)
    as [(c & Hc & _ & E) | [(idx & r & Hc & _ & E) | (e & E)]];
    rewrite E in H; inversion H; subst; lia.
Qed.

(** An event whose text is none of the remaining words: the scan runs to the
    end of the words and nothing is written. *)
Lemma loop_body_no_match (words : list Word) (rs : Z) (i : nat) (wd t : value)
    (w : world) :
  i <= length words ->
  getitem wd "text" = Ok t ->
  Forall (fun wo => str_ne (word_text wo) t = true) (skipn i words) ->
  loop_body words rs i wd w = (Ok (length words), w).
Proof.
  intros Hi Ht Hall. unfold loop_body, bind, lift.
  rewrite (scan_no_match _ _ _ Ht Hall), length_skipn.
  replace (i + (length words - i)) with (length words) by lia.
  assert (nth_error words (length words) = None) as ->
      by (apply nth_error_None; lia).
  reflexivity.
Qed.

(** Once the cursor is at the end, no event is looked at any more. *)
Lemma loop_body_exhausted (words : list Word) (rs : Z) (wd : value) (w : world) :
  loop_body words rs (length words) wd w = (Ok (length words), w).
Proof.
  unfold loop_body, bind, lift. rewrite skipn_all. cbn [scan].
  assert (nth_error words (length words) = None) as E
      by (apply nth_error_None; lia).
  rewrite E. reflexivity.
Qed.

Lemma matcher_exhausted (words : list Word) (rs : Z) (events : list value) (w : world) :
  matcher words rs events (length words) w = (Ok (length words), w).
Proof.
  induction events as [|wd events IH]; simpl; [reflexivity|].
  unfold bind. rewrite loop_body_exhausted. exact IH.
Qed.

(** ** The whole loop *)

Lemma binds_shift (words : list Word) (rs : Z) (wd : value) (events : list value)
    (m : nat * nat) (r : RecitationSurahTimestamp) :
  binds words rs events m r -> binds words rs (wd :: events) (shift m) r.
Proof.
  intros (e & s & H). exists e, s. simpl. exact H.
Qed.

Lemma binds_head (words : list Word) (rs : Z) (wd : value) (events : list value)
    (idx : nat) (r : RecitationSurahTimestamp) :
  binds words rs [wd] (idx, 0) r -> binds words rs (wd :: events) (idx, 0) r.
Proof.
  intros (e & s & H). exists e, s. simpl in *. exact H.
Qed.

Lemma Forall2_binds_shift (words : list Word) (rs : Z) (wd : value)
    (events : list value) (ms : list (nat * nat))
    (added : list RecitationSurahTimestamp) :
  Forall2 (binds words rs events) ms added ->
  Forall2 (binds words rs (wd :: events)) (map shift ms) added.
Proof.
  induction 1; simpl; constructor; auto using binds_shift.
Qed.

Lemma map_fst_shift (ms : list (nat * nat)) : map fst (map shift ms) = map fst ms.
Proof. rewrite map_map. reflexivity. Qed.

Lemma map_snd_shift (ms : list (nat * nat)) :
  map snd (map shift ms) = map S (map snd ms).
Proof. rewrite !map_map. reflexivity. Qed.

(** What a run of the loop from cursor [i] writes: records bound to words at
    increasing indices from [i] on and to events at increasing indices, and
    nothing else; a run that does not raise ends past every bound word. *)
Lemma matcher_run (words : list Word) (rs : Z) (events : list value) :
  forall (i : nat) (w : world),
  exists (ms : list (nat * nat)) (added : list RecitationSurahTimestamp),
    snd (matcher words rs events i w) = insert_timestamps added w /\
    Forall2 (binds words rs events) ms added /\
    ascending i (map fst ms) /\
    ascending 0 (map snd ms) /\
    (forall c, fst (matcher words rs events i w) = Ok c ->
               i <= c /\ Forall (fun m => fst m < c) ms).
Proof.
  induction events as [|wd events IH]; intros i w.
  - exists [], []. simpl. rewrite insert_timestamps_nil.
    repeat split; try constructor. unfold ret in H. simpl in H. injection H as <-. lia.
  - simpl. unfold bind.
    destruct (loop_body_cases words rs i wd w)
      as [(j & Hj & _ & E) | [(idx & r & Hidx & Hb & E) | (e & E)]]; rewrite E.
    + destruct (IH j w) as (ms & added & Hw & Hall & Ha & Hk & Hc).
      exists (map shift ms), added.
      rewrite map_fst_shift, map_snd_shift.
      split; [exact Hw|]. split; [now apply Forall2_binds_shift|].
      split; [now apply (ascending_weaken _ j)|].
      split; [apply (ascending_weaken _ 1); [lia | now apply ascending_map_S]|].
      intros c Hr. destruct (Hc c Hr) as [Hjc Hlt]. split; [lia|].
      apply Forall_map. exact Hlt.
    + destruct (IH (S idx) (insert_timestamps [r] w))
        as (ms & added & Hw & Hall & Ha & Hk & Hc).
      exists ((idx, 0) :: map shift ms), (r :: added).
      simpl. rewrite map_fst_shift, map_snd_shift.
      split; [rewrite Hw; apply insert_timestamps_twice|].
      split; [constructor; [now apply binds_head | now apply Forall2_binds_shift]|].
      split; [now split|].
      split; [split; [lia | now apply ascending_map_S]|].
      intros c Hr. destruct (Hc c Hr) as [Hjc Hlt]. split; [lia|].
      constructor; [simpl; lia|]. apply Forall_map. exact Hlt.
    + exists [], []. simpl. rewrite insert_timestamps_nil.
      repeat split; try constructor. discriminate.
Qed.

Lemma matcher_emitted (words : list Word) (rs : Z) (events : list value) (w : world) :
  snd (matcher words rs events 0 w) = insert_timestamps (emitted words rs events w) w.
Proof.
  unfold emitted.
  destruct (matcher_run words rs events 0 w) as (ms & added & Hw & _).
  rewrite Hw. unfold insert_timestamps at 2. simpl.
  now rewrite skipn_app, skipn_all, Nat.sub_diag.
Qed.

Lemma emitted_run (words : list Word) (rs : Z) (events : list value) (w : world) :
  exists ms : list (nat * nat),
    Forall2 (binds words rs events) ms (emitted words rs events w) /\
    ascending 0 (map fst ms) /\ ascending 0 (map snd ms).
Proof.
  destruct (matcher_run words rs events 0 w) as (ms & added & Hw & Hall & Ha & Hk & _).
  exists ms. split; [|now split].
  unfold emitted. rewrite Hw. unfold insert_timestamps. simpl.
  now rewrite skipn_app, skipn_all, Nat.sub_diag.
Qed.

Lemma loop_body_after_scan (words : list Word) (rs : Z) (i idx j : nat)
    (wd : value) (w w' : world) :
  scan (skipn i words) i wd = Ok idx ->
  loop_body words rs i wd w = (Ok j, w') -> idx <= j.
Proof.
  intros Hs. unfold loop_body, bind, lift. rewrite Hs.
  destruct (nth_error words idx).
  - destruct (getitem wd "start") as [s|]; [|discriminate].
    destruct (time_of_seconds s); [|discriminate].
    destruct (end_time_of wd); [|discriminate].
    unfold create_timestamp, ret. intro H. injection H as <- _. lia.
  - unfold ret. intro H. injection H as <- _. lia.
Qed.

Lemma cursor_trace_sorted (words : list Word) (rs : Z) (events : list value) :
  forall i w, Sorted le (i :: cursor_trace words rs events i w).
Proof.
  induction events as [|wd events IH]; intros i w; simpl.
  - repeat constructor.
  - destruct (scan (skipn i words) i wd) as [idx|e] eqn:Hs; [|repeat constructor].
    pose proof (scan_bounds _ _ _ _ Hs) as Hb.
    destruct (loop_body words rs i wd w) as [[j|e] w'] eqn:Hl.
    + pose proof (loop_body_after_scan _ _ _ _ _ _ _ _ Hs Hl) as Hj.
      specialize (IH j w').
      constructor; [|constructor; lia].
      constructor; [exact IH | constructor; exact Hj].
    + repeat constructor. lia.
Qed.

(** ** The claims on the matcher *)

(** C3. Whatever the words and the events, all the loop does to the store is
    to add records, and it adds at most min(|T|, |E|) of them, also when it
    ends by raising. *)
Theorem C3_emitted_at_most_min (words : list Word) (rs : Z) (events : list value)
    (w : world) :
  snd (matcher words rs events 0 w) = insert_timestamps (emitted words rs events w) w /\
  length (emitted words rs events w) <= Nat.min (length words) (length events).
Proof.
  split; [apply matcher_emitted|].
  destruct (emitted_run words rs events w) as (ms & Hall & Ha & Hk).
  rewrite <- (Forall2_length Hall).
  assert (Forall (fun m => fst m < length words /\ snd m < length events) ms) as Hlt.
  { clear Ha Hk. induction Hall as [|m r ms rs' Hb _ IH]; constructor; [|exact IH].
    destruct Hb as (e & s & He & Hw & _). split; apply nth_error_Some; congruence. }
  apply Nat.min_glb.
  - rewrite <- (length_map fst), <- (Nat.sub_0_r (length words)).
    apply ascending_length; [exact Ha|].
    apply Forall_map. eapply Forall_impl; [|exact Hlt]. simpl; tauto.
  - rewrite <- (length_map snd), <- (Nat.sub_0_r (length events)).
    apply ascending_length; [exact Hk|].
    apply Forall_map. eapply Forall_impl; [|exact Hlt]. simpl; tauto.
Qed.

(** C4. In every run the successive values of the cursor [word_idx] never
    decrease, and the records created are bound to words at strictly
    increasing indices, so that no index is bound twice. *)
Theorem C4_cursor_monotone_no_reuse (words : list Word) (rs : Z)
    (events : list value) (w : world) :
  Sorted le (0 :: cursor_trace words rs events 0 w) /\
  exists idxs : list nat,
    StronglySorted lt idxs /\ NoDup idxs /\
    Forall2 (fun j r => nth_error words j = Some (ts_word r))
            idxs (emitted words rs events w).
Proof.
  split; [apply cursor_trace_sorted|].
  destruct (emitted_run words rs events w) as (ms & Hall & Ha & _).
  exists (map fst ms).
  pose proof (ascending_sorted _ _ Ha) as Hs.
  split; [exact Hs|]. split; [now apply sorted_lt_NoDup|].
  clear Ha Hs. induction Hall as [|m r ms rs' Hb _ IH]; simpl; constructor; [|exact IH].
  destruct Hb as (e & s & _ & Hw & _). exact Hw.
Qed.

(** C8. With no word or with no event the loop creates no record and raises
    nothing, whatever the events hold. *)
Theorem C8_empty_inputs (rs : Z) (w : world) :
  (forall events : list value, matcher [] rs events 0 w = (Ok 0, w)) /\
  (forall words : list Word, matcher words rs [] 0 w = (Ok 0, w)).
Proof.
  split.
  - intro events. exact (matcher_exhausted [] rs events w).
  - reflexivity.
Qed.

(** The scenario of the specification: words a, b, a, c and the events a,
    c give a record for word 0 and one for word 3. *)
Example scenario_of_the_specification :
  emitted [word 1 "a"; word 2 "b"; word 3 "a"; word 4 "c"] 7
    (map event_json [event "a" 0 (Some (1 # 2)); event "c" 1 (Some (6 # 5))]) no_rows
  = [record_of 7 (word 1 "a", event "a" 0 (Some (1 # 2)));
     record_of 7 (word 4 "c", event "c" 1 (Some (6 # 5)))].
Proof. vm_compute. reflexivity. Qed.

(** C1, as the code has it. An event whose text is none of the words from the
    cursor on creates no record and raises nothing; its scan leaves the cursor
    at the end of the words, not where it was, so that no later event creates
    a record either. *)
Theorem C1_unmatched_event_exhausts_cursor (words : list Word) (rs : Z) (i : nat)
    (wd t : value) (later : list value) (w : world) :
  i <= length words ->
  getitem wd "text" = Ok t ->
  Forall (fun wo => str_ne (word_text wo) t = true) (skipn i words) ->
  loop_body words rs i wd w = (Ok (length words), w) /\
  matcher words rs (wd :: later) i w = (Ok (length words), w).
Proof.
  intros Hi Ht Hall.
  pose proof (loop_body_no_match words rs i wd t w Hi Ht Hall) as E.
  split; [exact E|].
  simpl. unfold bind. rewrite E. apply matcher_exhausted.
Qed.

Lemma C1_unmatched_event_exhausts_cursor_witness :
  let words := [word 1 "a"; word 2 "b"] in
  let x := event_json (event "x" 0 None) in
  let a := event_json (event "a" 1 None) in
  loop_body words 7 0 x no_rows = (Ok 2, no_rows) /\
  matcher words 7 [x; a] 0 no_rows = (Ok 2, no_rows).
Proof.
  intros words x a.
  refine (C1_unmatched_event_exhausts_cursor words 7 0 x (VStr "x") [a] no_rows _ _ _).
  - simpl. lia.
  - reflexivity.
  - repeat constructor.
Defined.

(** C1 as stated fails: with words a, b and the cursor at 0, the event x
    matches no word, yet the cursor it leaves is 2, not 0, and the later event
    a, which alone is bound to word 0, creates no record after x. *)
Lemma C1_counterexample :
  let words := [word 1 "a"; word 2 "b"] in
  let x := event_json (event "x" 0 None) in
  let a := event_json (event "a" 1 None) in
  Forall (fun wo => str_ne (word_text wo) (VStr "x") = true) (skipn 0 words) /\
  fst (loop_body words 7 0 x no_rows) <> Ok 0 /\
  emitted words 7 [x; a] no_rows = [] /\
  emitted words 7 [a] no_rows <> [].
Proof.
  repeat split.
  - repeat constructor.
  - vm_compute. discriminate.
  - vm_compute. discriminate.
Qed.

(** ** Typed events under the loop *)

Lemma time_of_seconds_representable (q : Q) :
  representable q -> time_of_seconds (VNum q) = Ok (time_of_offset q).
Proof.
  unfold representable, time_of_seconds, timedelta_us. intros [H0 H1].
  apply Z.leb_le in H0. apply Z.ltb_lt in H1. now rewrite H0, H1.
Qed.

Lemma end_time_of_event (e : TimedEvent) :
  well_timed e ->
  end_time_of (event_json e) = Ok (ts_end_time (record_of 0 (word 0 EmptyString, e))).
Proof.
  intros [_ He]. unfold end_time_of, event_json, get, getitem. simpl.
  destruct (ev_end e) as [q|]; simpl; [|reflexivity].
  destruct (Qeq_bool q 0); simpl; [reflexivity|].
  now rewrite (time_of_seconds_representable q He).
Qed.

(** The event at the head matches the word under the cursor. *)
Lemma loop_body_match_head (pre rest : list Word) (wo : Word) (rs : Z)
    (e : TimedEvent) (w : world) :
  ev_text e = word_text wo ->
  well_timed e ->
  loop_body (pre ++ wo :: rest) rs (length pre) (event_json e) w =
  (Ok (S (length pre)), insert_timestamps [record_of rs (wo, e)] w).
Proof.
  intros Ht Hv. unfold loop_body, bind, lift.
  rewrite skipn_app, skipn_all, Nat.sub_diag. simpl skipn. simpl app.
  assert (scan (wo :: rest) (length pre) (event_json e) = Ok (length pre)) as ->.
  { simpl. rewrite Ht, String.eqb_refl. reflexivity. }
  rewrite nth_error_app2, Nat.sub_diag by lia. cbn [nth_error].
  assert (getitem (event_json e) "start" = Ok (VNum (ev_start e))) as -> by reflexivity.
  rewrite (time_of_seconds_representable _ (proj1 Hv)).
  rewrite (end_time_of_event e Hv). reflexivity.
Qed.

Lemma matcher_in_order (rs : Z) (E : list TimedEvent) :
  forall (pre T : list Word) (w : world),
    (forall k wo e, nth_error T k = Some wo -> nth_error E k = Some e ->
                    ev_text e = word_text wo) ->
    Forall well_timed E ->
    matcher (pre ++ T) rs (map event_json E) (length pre) w =
    (Ok (length pre + Nat.min (length T) (length E)),
     insert_timestamps (map (record_of rs) (combine T E)) w).
Proof.
  induction E as [|e E IH]; intros pre T w Htext Hv.
  - rewrite Nat.min_0_r, Nat.add_0_r, combine_nil. simpl.
    now rewrite insert_timestamps_nil.
  - destruct T as [|wo T].
    + rewrite app_nil_r. simpl Nat.min. rewrite Nat.add_0_r.
      simpl combine. simpl map at 2. rewrite insert_timestamps_nil.
      apply matcher_exhausted.
    + inversion Hv as [|? ? He HE]; subst.
      cbn [map matcher]. unfold bind.
      rewrite (loop_body_match_head pre T wo rs e w (Htext 0 wo e eq_refl eq_refl) He).
      specialize (IH (pre ++ [wo])%list T (insert_timestamps [record_of rs (wo, e)] w)).
      rewrite <- app_assoc, length_app in IH. simpl in IH.
      rewrite Nat.add_1_r in IH. rewrite IH.
      * simpl. rewrite insert_timestamps_twice. f_equal. f_equal. lia.
      * intros k wo' e' Hw He'. exact (Htext (S k) wo' e' Hw He').
      * exact HE.
Qed.

(** C2, as the code has it. When the k-th event carries the text of the k-th
    word for every k below min(n, m), and every offset is one the task can
    turn into a time, the loop creates exactly min(n, m) records and the k-th
    binds word k to the times of day of the start and of the end of event k;
    an end equal to zero is kept as no end time. *)
Theorem C2_in_order_match (words : list Word) (rs : Z) (E : list TimedEvent)
    (w : world) :
  (forall k wo e, nth_error words k = Some wo -> nth_error E k = Some e ->
                  ev_text e = word_text wo) ->
  Forall well_timed E ->
  fst (matcher words rs (map event_json E) 0 w)
    = Ok (Nat.min (length words) (length E)) /\
  length (emitted words rs (map event_json E) w) = Nat.min (length words) (length E) /\
  forall k wo e, nth_error words k = Some wo -> nth_error E k = Some e ->
    nth_error (emitted words rs (map event_json E) w) k = Some (record_of rs (wo, e)).
Proof.
  intros Htext Hv.
  pose proof (matcher_in_order rs E [] words w Htext Hv) as Hm. simpl in Hm.
  assert (emitted words rs (map event_json E) w = map (record_of rs) (combine words E))
    as Hem.
  { unfold emitted. rewrite Hm. unfold insert_timestamps. simpl.
    now rewrite skipn_app, skipn_all, Nat.sub_diag. }
  rewrite Hem, Hm. split; [reflexivity|].
  split; [now rewrite length_map, length_combine|].
  intros k wo e Hw He. rewrite nth_error_map.
  assert (nth_error (combine words E) k = Some (wo, e)) as ->; [|reflexivity].
  clear - Hw He. revert k E Hw He.
  induction words as [|x words IH]; intros [|k] [|y E] Hw He; try discriminate.
  - simpl in *. congruence.
  - simpl in *. now apply IH.
Qed.

Lemma C2_in_order_match_witness :
  let words := [word 1 "a"; word 2 "b"; word 3 "c"] in
  let E := [event "a" 0 (Some (1 # 2)); event "b" (3 # 4) None] in
  fst (matcher words 7 (map event_json E) 0 no_rows) = Ok 2 /\
  length (emitted words 7 (map event_json E) no_rows) = 2 /\
  forall k wo e, nth_error words k = Some wo -> nth_error E k = Some e ->
    nth_error (emitted words 7 (map event_json E) no_rows) k = Some (record_of 7 (wo, e)).
Proof.
  intros words E.
  refine (C2_in_order_match words 7 E no_rows _ _).
  - intros [|[|[|k]]] wo e Hw He; simpl in Hw, He;
      try discriminate; try (destruct k; discriminate);
      injection Hw as <-; injection He as <-; reflexivity.
  - repeat constructor; vm_compute; intuition discriminate.
Defined.

(** C2 as stated fails: the single event a with start 0 and end 0 carries the
    text of the single word a, and the record created holds no end time
    instead of the time of the end offset 0. *)
Lemma C2_counterexample :
  let words := [word 1 "a"] in
  let e := event "a" 0 (Some 0%Q) in
  ev_text e = "a" /\
  exists r, emitted words 7 [event_json e] no_rows = [r] /\
            ts_word r = word 1 "a" /\
            ts_end_time r <> option_map time_of_offset (ev_end e).
Proof.
  split; [reflexivity|].
  eexists. split; [vm_compute; reflexivity|]. split; [reflexivity|].
  simpl. discriminate.
Qed.

(** The range asked of the offsets is needed as well: a start of -1 second
    makes line 189 raise and the matching word gets no record. *)
Example negative_start_raises :
  matcher [word 1 "a"] 7 [event_json (event "a" (-1) None)] 0 no_rows
  = (Raise OverflowError, no_rows).
Proof. vm_compute. reflexivity. Qed.

(** C9. A matched event whose ['end'], as [get] gives it, is falsy (zero, or
    [None] as for a missing key, among others) gets a record without end
    time: line 190 tests the truth of the field, not its presence. *)
Theorem C9_falsy_end_is_no_end (words : list Word) (rs : Z) (i idx : nat)
    (wd start e : value) (t : time) (word_obj : Word) (w : world) :
  scan (skipn i words) i wd = Ok idx ->
  nth_error words idx = Some word_obj ->
  getitem wd "start" = Ok start ->
  time_of_seconds start = Ok t ->
  get wd "end" = Ok e ->
  truthy e = false ->
  loop_body words rs i wd w =
  (Ok (S idx), insert_timestamps [{| ts_recitation_surah := rs;
                                     ts_start_time := t;
                                     ts_end_time := None;
                                     ts_word := word_obj |}] w).
Proof.
  intros Hs Hn Hst Ht He Hf. unfold loop_body, bind, lift.
  rewrite Hs, Hn, Hst, Ht. unfold end_time_of. rewrite He, Hf. reflexivity.
Qed.

Lemma C9_falsy_end_is_no_end_witness :
  let words := [word 1 "a"] in
  let wd := VDict [("text", VStr "a"); ("start", VNum (3 # 2)); ("end", VNum 0)] in
  getitem wd "end" = Ok (VNum 0) /\
  loop_body words 7 0 wd no_rows =
  (Ok 1, insert_timestamps [{| ts_recitation_surah := 7;
                               ts_start_time := Time 1500000;
                               ts_end_time := None;
                               ts_word := word 1 "a" |}] no_rows).
Proof.
  intros words wd. split; [reflexivity|].
  refine (C9_falsy_end_is_no_end words 7 0 0 wd (VNum (3 # 2)) (VNum 0)
            (Time 1500000) (word 1 "a") no_rows _ _ _ _ _ _); reflexivity.
Defined.

(** ** Rounding is monotone *)

Lemma round_half_even_spec (q : Q) :
  let k := round_half_even q in
  let n := Qnum q in
  let d := Zpos (Qden q) in
  (2 * n - d < 2 * d * k < 2 * n + d)%Z
  \/ ((2 * d * k = 2 * n - d)%Z /\ Z.even k = true)
  \/ ((2 * d * k = 2 * n + d)%Z /\ Z.even k = true).
Proof.
  unfold round_half_even. cbv zeta.
  set (n := Qnum q). set (d := Zpos (Qden q)).
  assert (0 < d)%Z as Hd by (unfold d; lia).
  pose proof (Z.div_mod n d ltac:(lia)) as Hdm.
  pose proof (Z.mod_pos_bound n d Hd) as Hr.
  set (fl := (n / d)%Z) in *. set (r := (n mod d)%Z) in *.
  destruct (2 * r <? d)%Z eqn:H1; [apply Z.ltb_lt in H1; left; nia|].
  apply Z.ltb_ge in H1.
  destruct (d <? 2 * r)%Z eqn:H2; [apply Z.ltb_lt in H2; left; nia|].
  apply Z.ltb_ge in H2.
  destruct (Z.even fl) eqn:He.
  - right; left. split; [nia | exact He].
  - right; right. split; [nia|].
    rewrite Z.add_1_r, Z.even_succ, <- Z.negb_even, He. reflexivity.
Qed.

Lemma round_half_even_monotone (p q : Q) :
  (p <= q)%Q -> (round_half_even p <= round_half_even q)%Z.
Proof.
  unfold Qle. intro Hle.
  pose proof (round_half_even_spec p) as Hp.
  pose proof (round_half_even_spec q) as Hq.
  cbv zeta in Hp, Hq.
  set (a := round_half_even p) in *. set (b := round_half_even q) in *.
  set (n1 := Qnum p) in *. set (n2 := Qnum q) in *.
  set (d1 := Zpos (Qden p)) in *. set (d2 := Zpos (Qden q)) in *.
  assert (0 < d1)%Z as Hd1 by (unfold d1; lia).
  assert (0 < d2)%Z as Hd2 by (unfold d2; lia).
  destruct (Z_le_gt_dec a b) as [|Hgt]; [assumption|exfalso].
  assert (2 * d1 * a <= 2 * n1 + d1)%Z as Ua by lia.
  assert (2 * n2 - d2 <= 2 * d2 * b)%Z as Lb by lia.
  assert (2 * d1 * d2 * a <= 2 * d1 * d2 * b + 2 * d1 * d2)%Z as Hab by nia.
  assert (a = b + 1)%Z as Eab by nia.
  assert ((2 * d1 * a = 2 * n1 + d1)%Z /\ (2 * d2 * b = 2 * n2 - d2)%Z) as [E1 E2] by nia.
  assert (Z.even a = true) as Ea by (destruct Hp as [?|[[? ?]|[? ?]]]; [lia | nia | assumption]).
  assert (Z.even b = true) as Eb by (destruct Hq as [?|[[? ?]|[? ?]]]; [lia | assumption | nia]).
  rewrite Eab, Z.add_1_r, Z.even_succ, <- Z.negb_even, Eb in Ea. discriminate.
Qed.

(** ** Rounding to a double is monotone *)

Section Rounding.

Local Open Scope Q_scope.

Lemma round_half_even_Z (z : Z) : round_half_even (inject_Z z) = z.
Proof.
  unfold round_half_even, inject_Z. simpl. now rewrite Z.div_1_r, Z.mod_1_r.
Qed.

Lemma round_half_even_zero (d : positive) : round_half_even (0 # d) = 0%Z.
Proof. reflexivity. Qed.

Lemma pow2_pos (s : Z) : (0 <= s -> 0 < 2 ^ s)%Z.
Proof. intro H. apply Z.pow_pos_nonneg; lia. Qed.

Lemma pow2_to_pos (s : Z) : (0 <= s -> Zpos (Z.to_pos (2 ^ s)) = 2 ^ s)%Z.
Proof. intro H. apply Z2Pos.id. now apply pow2_pos. Qed.

Lemma ulp_exponent_nonneg (t : Z) : (0 <= ulp_exponent t)%Z.
Proof. unfold ulp_exponent. lia. Qed.

Lemma ulp_exponent_monotone (t u : Z) :
  (t <= u)%Z -> (ulp_exponent t <= ulp_exponent u)%Z.
Proof.
  intro H. unfold ulp_exponent. pose proof (Z.log2_le_mono _ _ H). lia.
Qed.

(** The exponent of a quotient and the binade the quotient lies in. *)
Section Binade.

Variables (n : Z) (d : positive).
Hypothesis Hn : (0 <= n)%Z.

Lemma floor_bounds : (n / Zpos d * Zpos d <= n < (n / Zpos d + 1) * Zpos d)%Z.
Proof.
  pose proof (Z.div_mod n (Zpos d) ltac:(lia)) as H.
  pose proof (Z.mod_pos_bound n (Zpos d) ltac:(lia)) as Hr. nia.
Qed.

Lemma floor_nonneg : (0 <= n / Zpos d)%Z.
Proof. apply Z.div_pos; lia. Qed.

Lemma below_next_binade :
  (n < 2 ^ (ulp_exponent (n / Zpos d) + 53) * Zpos d)%Z.
Proof.
  pose proof floor_bounds as Hb. pose proof floor_nonneg as Ht.
  pose proof (ulp_exponent_nonneg (n / Zpos d)) as Hs.
  set (t := (n / Zpos d)%Z) in *.
  assert (t + 1 <= 2 ^ (ulp_exponent t + 53))%Z as Hp.
  { destruct (Z.eq_dec t 0) as [E | E].
    - rewrite E in *. pose proof (pow2_pos (ulp_exponent 0 + 53)). lia.
    - pose proof (Z.log2_spec t ltac:(lia)) as [_ Hl].
      assert (2 ^ Z.succ (Z.log2 t) <= 2 ^ (ulp_exponent t + 53))%Z
        by (apply Z.pow_le_mono_r; unfold ulp_exponent; lia).
      lia. }
  nia.
Qed.

Lemma above_binade :
  (0 < ulp_exponent (n / Zpos d) ->
   2 ^ (ulp_exponent (n / Zpos d) + 52) * Zpos d <= n)%Z.
Proof.
  intro Hs. pose proof floor_bounds as Hb. pose proof floor_nonneg as Ht0.
  set (t := (n / Zpos d)%Z) in *.
  assert (ulp_exponent t = Z.log2 t - 52)%Z as E by (unfold ulp_exponent in *; lia).
  assert (0 < t)%Z as Ht.
  { destruct (Z.eq_dec t 0) as [E0 | E0]; [|lia].
    rewrite E0 in E. unfold ulp_exponent in E. simpl in E. lia. }
  pose proof (Z.log2_spec t Ht) as [Hl _].
  replace (ulp_exponent t + 52)%Z with (Z.log2 t) by lia. nia.
Qed.

Lemma mantissa_at_most :
  (round_half_even (n # (d * Z.to_pos (2 ^ ulp_exponent (n / Zpos d)))) <= 2 ^ 53)%Z.
Proof.
  rewrite <- (round_half_even_Z (2 ^ 53)). apply round_half_even_monotone.
  unfold Qle, inject_Z. cbn [Qnum Qden].
  pose proof (ulp_exponent_nonneg (n / Zpos d)) as Hs.
  rewrite Pos2Z.inj_mul, (pow2_to_pos _ Hs).
  pose proof below_next_binade as H.
  rewrite Z.pow_add_r in H by lia. lia.
Qed.

Lemma mantissa_at_least :
  (0 < ulp_exponent (n / Zpos d) ->
   2 ^ 52 <= round_half_even (n # (d * Z.to_pos (2 ^ ulp_exponent (n / Zpos d)))))%Z.
Proof.
  intro Hs. rewrite <- (round_half_even_Z (2 ^ 52)) at 1.
  apply round_half_even_monotone.
  unfold Qle, inject_Z. cbn [Qnum Qden].
  rewrite Pos2Z.inj_mul, (pow2_to_pos _ (ulp_exponent_nonneg _)).
  pose proof (above_binade Hs) as H.
  rewrite Z.pow_add_r in H by lia. lia.
Qed.

End Binade.

Lemma shift_monotone (n1 n2 : Z) (d1 d2 : positive) :
  (0 <= n1)%Z -> (n1 * Zpos d2 <= n2 * Zpos d1)%Z ->
  (ulp_exponent (n1 / Zpos d1) <= ulp_exponent (n2 / Zpos d2))%Z.
Proof.
  intros H1 Hle. apply ulp_exponent_monotone.
  apply Z.div_le_lower_bound; [lia|].
  pose proof (floor_bounds n1 d1) as Hb. nia.
Qed.

(** Rounding to the mantissa and shifting back keeps the order. *)
Lemma rounded_monotone (n1 n2 : Z) (d1 d2 : positive) :
  (0 <= n1)%Z -> (n1 * Zpos d2 <= n2 * Zpos d1)%Z ->
  let s1 := ulp_exponent (n1 / Zpos d1) in
  let s2 := ulp_exponent (n2 / Zpos d2) in
  (round_half_even (n1 # (d1 * Z.to_pos (2 ^ s1))) * 2 ^ s1
   <= round_half_even (n2 # (d2 * Z.to_pos (2 ^ s2))) * 2 ^ s2)%Z.
Proof.
  intros H1 Hle s1 s2.
  assert (0 <= n2)%Z as H2 by nia.
  pose proof (shift_monotone n1 n2 d1 d2 H1 Hle) as Hs. fold s1 s2 in Hs.
  pose proof (ulp_exponent_nonneg (n1 / Zpos d1)) as Hs1. fold s1 in Hs1.
  pose proof (pow2_pos s1 Hs1) as Hp1.
  destruct (Z.eq_dec s1 s2) as [E | E].
  - rewrite <- E. apply Z.mul_le_mono_nonneg_r; [lia|].
    apply round_half_even_monotone. unfold Qle. cbn [Qnum Qden].
    rewrite !Pos2Z.inj_mul, (pow2_to_pos s1 Hs1). nia.
  - pose proof (mantissa_at_most n1 d1) as Hm1. fold s1 in Hm1.
    pose proof (mantissa_at_least n2 d2 ltac:(fold s2; lia)) as Hm2. fold s2 in Hm2.
    assert (2 ^ 53 * 2 ^ s1 <= 2 ^ 52 * 2 ^ s2)%Z as Hpow.
    { rewrite <- !Z.pow_add_r by lia. apply Z.pow_le_mono_r; lia. }
    assert (0 < 2 ^ s2)%Z as Hp2 by (apply pow2_pos; lia).
    nia.
Qed.

Lemma round_to_double_num (x : Q) :
  (0 <= Qnum x)%Z ->
  let n := (Qnum x * double_grid)%Z in
  let s := ulp_exponent (n / Zpos (Qden x)) in
  Qnum (round_to_double x)
  = (round_half_even (n # (Qden x * Z.to_pos (2 ^ s))) * 2 ^ s)%Z.
Proof.
  intros H n s. unfold round_to_double. cbn [Qnum].
  rewrite (Z.abs_eq _ H). fold n. fold s.
  destruct (Z.eq_dec (Qnum x) 0) as [E | E].
  - unfold n. rewrite E. reflexivity.
  - replace (Z.sgn (Qnum x)) with 1%Z by (symmetry; apply Z.sgn_pos; lia). lia.
Qed.

Lemma double_grid_pos : (0 < double_grid)%Z.
Proof. reflexivity. Qed.

(** Rounding to a double keeps the order of numbers that are not negative. *)
Lemma round_to_double_monotone_from_zero (x y : Q) :
  0 <= x -> x <= y -> round_to_double x <= round_to_double y.
Proof.
  intros Hx Hxy.
  assert (0 <= Qnum x)%Z as Hnx by (unfold Qle in Hx; simpl in Hx; lia).
  assert (0 <= Qnum y)%Z as Hny.
  { assert (0 <= y) as Hy by (eapply Qle_trans; eassumption).
    unfold Qle in Hy. simpl in Hy. lia. }
  unfold Qle. rewrite (round_to_double_num x Hnx), (round_to_double_num y Hny).
  unfold round_to_double at 1 2. cbn [Qden].
  apply Z.mul_le_mono_nonneg_r; [lia|].
  apply rounded_monotone.
  - pose proof double_grid_pos. nia.
  - unfold Qle in Hxy. pose proof double_grid_pos. nia.
Qed.

Lemma trunc_nonneg (q : Q) : 0 <= q -> trunc q = Qfloor q.
Proof.
  intro H. unfold trunc.
  assert (0 <= Qnum q)%Z as Hn by (unfold Qle in H; simpl in H; lia).
  apply Z.leb_le in Hn. now rewrite Hn.
Qed.

(** The microseconds of the part below a second: from 0 to a full second. *)
Lemma fraction_us_bounds (f : Q) :
  0 <= f -> f < 1 ->
  (0 <= round_half_even (round_to_double (f * inject_Z us_per_second))
   <= us_per_second)%Z.
Proof.
  intros H0 H1.
  assert (0 <= inject_Z us_per_second) as Hc by (unfold Qle; simpl; lia).
  assert (0 <= f * inject_Z us_per_second) as Hf by now apply Qmult_le_0_compat.
  split.
  - change 0%Z with (round_half_even (round_to_double 0)).
    apply round_half_even_monotone, round_to_double_monotone_from_zero;
      [apply Qle_refl | exact Hf].
  - change us_per_second
      with (round_half_even (round_to_double (inject_Z us_per_second))) at 2.
    apply round_half_even_monotone, round_to_double_monotone_from_zero; [exact Hf|].
    rewrite <- (Qmult_1_l (inject_Z us_per_second)) at 2.
    apply Qmult_le_compat_r; [lra | exact Hc].
Qed.

(** The microseconds [timedelta] computes never decrease with the seconds,
    from 0 on. *)
Lemma seconds_to_us_monotone_from_zero (p q : Q) :
  0 <= p -> p <= q -> (seconds_to_us p <= seconds_to_us q)%Z.
Proof.
  intros Hp Hpq.
  assert (0 <= q) as Hq by (eapply Qle_trans; eassumption).
  unfold seconds_to_us. cbv zeta.
  rewrite (trunc_nonneg p Hp), (trunc_nonneg q Hq).
  pose proof (Qfloor_resp_le p q Hpq) as Hfl.
  pose proof (Qfloor_le p) as Hp0. pose proof (Qlt_floor p) as Hp1.
  pose proof (Qfloor_le q) as Hq0. pose proof (Qlt_floor q) as Hq1.
  rewrite inject_Z_plus in Hp1, Hq1. change (inject_Z 1) with 1 in Hp1, Hq1.
  assert (0 <= p - inject_Z (Qfloor p)) as Fp0 by lra.
  assert (p - inject_Z (Qfloor p) < 1) as Fp1 by lra.
  assert (0 <= q - inject_Z (Qfloor q)) as Fq0 by lra.
  assert (q - inject_Z (Qfloor q) < 1) as Fq1 by lra.
  destruct (Z.eq_dec (Qfloor p) (Qfloor q)) as [E | E].
  - rewrite E in *. apply Z.add_le_mono_l.
    assert (0 <= inject_Z us_per_second) as Hc by (unfold Qle; simpl; lia).
    apply round_half_even_monotone, round_to_double_monotone_from_zero.
    + now apply Qmult_le_0_compat.
    + apply Qmult_le_compat_r; [lra | exact Hc].
  - pose proof (fraction_us_bounds _ Fp0 Fp1) as [_ Bp].
    pose proof (fraction_us_bounds _ Fq0 Fq1) as [Bq _].
    unfold us_per_second in *. nia.
Qed.

(** Whole seconds are exact. *)
Lemma seconds_to_us_Z (z : Z) : seconds_to_us (inject_Z z) = (z * us_per_second)%Z.
Proof.
  unfold seconds_to_us. cbv zeta.
  assert (trunc (inject_Z z) = z) as ->.
  { unfold trunc, inject_Z. cbn [Qnum].
    destruct (0 <=? z)%Z; [apply Qfloor_Z|].
    change (- (z # 1)) with (inject_Z (- z)). rewrite Qfloor_Z. lia. }
  assert (round_to_double ((inject_Z z - inject_Z z) * inject_Z us_per_second) = 0 # Z.to_pos double_grid) as ->.
  { unfold round_to_double.
    assert (Qnum ((inject_Z z - inject_Z z) * inject_Z us_per_second) = 0%Z) as ->
        by (unfold inject_Z; cbn [Qnum Qden Qmult Qminus Qplus Qopp]; lia).
    reflexivity. }
  rewrite round_half_even_zero. lia.
Qed.

Lemma round_half_even_nonneg (n : Z) (d : positive) :
  (0 <= n)%Z -> (0 <= round_half_even (n # d))%Z.
Proof.
  intro H. rewrite <- (round_half_even_zero d).
  apply round_half_even_monotone. unfold Qle. cbn [Qnum Qden]. nia.
Qed.

Lemma round_to_double_num_neg (x : Q) :
  (Qnum x <= 0)%Z ->
  let n := (- Qnum x * double_grid)%Z in
  let s := ulp_exponent (n / Zpos (Qden x)) in
  Qnum (round_to_double x)
  = (- (round_half_even (n # (Qden x * Z.to_pos (2 ^ s))) * 2 ^ s))%Z.
Proof.
  intros H n s. unfold round_to_double. cbn [Qnum].
  rewrite (Z.abs_neq _ H). fold n. fold s.
  destruct (Z.eq_dec (Qnum x) 0) as [E | E].
  - unfold n. rewrite E. reflexivity.
  - replace (Z.sgn (Qnum x)) with (-1)%Z by (symmetry; apply Z.sgn_neg; lia). lia.
Qed.

Lemma round_to_double_den (x : Q) : Qden (round_to_double x) = Z.to_pos double_grid.
Proof. reflexivity. Qed.

Lemma rounded_nonneg (n : Z) (d : positive) (s : Z) :
  (0 <= n)%Z -> (0 <= s)%Z ->
  (0 <= round_half_even (n # (d * Z.to_pos (2 ^ s))) * 2 ^ s)%Z.
Proof.
  intros Hn Hs. pose proof (round_half_even_nonneg n (d * Z.to_pos (2 ^ s)) Hn).
  pose proof (pow2_pos s Hs). nia.
Qed.

Lemma round_to_double_num_nonneg (x : Q) :
  (0 <= Qnum x)%Z -> (0 <= Qnum (round_to_double x))%Z.
Proof.
  intro H. rewrite (round_to_double_num x H). pose proof double_grid_pos.
  apply rounded_nonneg; [nia | apply Z.le_max_l].
Qed.

Lemma round_to_double_num_nonpos (x : Q) :
  (Qnum x <= 0)%Z -> (Qnum (round_to_double x) <= 0)%Z.
Proof.
  intro H. rewrite (round_to_double_num_neg x H). pose proof double_grid_pos.
  apply Z.opp_nonpos_nonneg. apply rounded_nonneg; [nia | apply Z.le_max_l].
Qed.

(** Rounding to a double keeps the order. *)
Lemma round_to_double_monotone (x y : Q) :
  x <= y -> round_to_double x <= round_to_double y.
Proof.
  intro Hxy.
  destruct (Z_le_gt_dec 0 (Qnum x)) as [Hx | Hx].
  { apply round_to_double_monotone_from_zero; [|exact Hxy]. unfold Qle. simpl. lia. }
  pose proof double_grid_pos as Hg.
  unfold Qle. rewrite !round_to_double_den.
  apply Z.mul_le_mono_nonneg_r; [lia|].
  destruct (Z_le_gt_dec 0 (Qnum y)) as [Hy | Hy].
  - pose proof (round_to_double_num_nonpos x ltac:(lia)).
    pose proof (round_to_double_num_nonneg y Hy). lia.
  - rewrite (round_to_double_num_neg x ltac:(lia)).
    rewrite (round_to_double_num_neg y ltac:(lia)).
    apply -> Z.opp_le_mono.
    apply rounded_monotone; [nia|].
    unfold Qle in Hxy. nia.
Qed.

Lemma trunc_neg (q : Q) : q < 0 -> trunc q = (- Qfloor (- q))%Z.
Proof.
  intro H. unfold trunc.
  assert (Qnum q < 0)%Z as Hn by (unfold Qlt in H; simpl in H; lia).
  apply Z.leb_gt in Hn. now rewrite Hn.
Qed.

(** The same below zero: from a full second back to 0. *)
Lemma fraction_us_bounds_neg (f : Q) :
  - (1) < f -> f <= 0 ->
  (- us_per_second
   <= round_half_even (round_to_double (f * inject_Z us_per_second)) <= 0)%Z.
Proof.
  intros H0 H1.
  assert (0 <= inject_Z us_per_second) as Hc by (unfold Qle; simpl; lia).
  split.
  - change (- us_per_second)%Z
      with (round_half_even (round_to_double (- (1) * inject_Z us_per_second))).
    apply round_half_even_monotone, round_to_double_monotone.
    apply Qmult_le_compat_r; [lra | exact Hc].
  - change 0%Z with (round_half_even (round_to_double (0 * inject_Z us_per_second))).
    apply round_half_even_monotone, round_to_double_monotone.
    apply Qmult_le_compat_r; [lra | exact Hc].
Qed.

Lemma seconds_to_us_nonpos (p : Q) : p < 0 -> (seconds_to_us p <= 0)%Z.
Proof.
  intro Hp. unfold seconds_to_us. cbv zeta. rewrite (trunc_neg p Hp).
  rewrite inject_Z_opp.
  pose proof (Qfloor_le (- p)) as H0. pose proof (Qlt_floor (- p)) as H1.
  rewrite inject_Z_plus in H1. change (inject_Z 1) with 1 in H1.
  assert (0 <= Qfloor (- p))%Z as Hf.
  { change 0%Z with (Qfloor 0). apply Qfloor_resp_le. lra. }
  assert (- (1) < p - - inject_Z (Qfloor (- p))) as F0 by lra.
  assert (p - - inject_Z (Qfloor (- p)) <= 0) as F1 by lra.
  pose proof (fraction_us_bounds_neg _ F0 F1) as [_ B].
  unfold us_per_second in *. lia.
Qed.

Lemma seconds_to_us_nonneg (q : Q) : 0 <= q -> (0 <= seconds_to_us q)%Z.
Proof.
  intro Hq. change 0%Z with (seconds_to_us 0) at 1.
  apply seconds_to_us_monotone_from_zero; [apply Qle_refl | exact Hq].
Qed.

(** The microseconds [timedelta] computes never decrease with the seconds. *)
Lemma seconds_to_us_monotone (p q : Q) :
  p <= q -> (seconds_to_us p <= seconds_to_us q)%Z.
Proof.
  intro Hpq.
  destruct (Qlt_le_dec p 0) as [Hp | Hp]; [|now apply seconds_to_us_monotone_from_zero].
  destruct (Qlt_le_dec q 0) as [Hq | Hq].
  2:{ pose proof (seconds_to_us_nonpos p Hp). pose proof (seconds_to_us_nonneg q Hq). lia. }
  unfold seconds_to_us. cbv zeta.
  rewrite (trunc_neg p Hp), (trunc_neg q Hq), !inject_Z_opp.
  assert (Qfloor (- q) <= Qfloor (- p))%Z as Hfl by (apply Qfloor_resp_le; lra).
  pose proof (Qfloor_le (- p)) as Hp0. pose proof (Qlt_floor (- p)) as Hp1.
  pose proof (Qfloor_le (- q)) as Hq0. pose proof (Qlt_floor (- q)) as Hq1.
  rewrite inject_Z_plus in Hp1, Hq1. change (inject_Z 1) with 1 in Hp1, Hq1.
  assert (- (1) < p - - inject_Z (Qfloor (- p))) as Fp0 by lra.
  assert (p - - inject_Z (Qfloor (- p)) <= 0) as Fp1 by lra.
  assert (- (1) < q - - inject_Z (Qfloor (- q))) as Fq0 by lra.
  assert (q - - inject_Z (Qfloor (- q)) <= 0) as Fq1 by lra.
  destruct (Z.eq_dec (Qfloor (- p)) (Qfloor (- q))) as [E | E].
  - rewrite E in *. apply Z.add_le_mono_l.
    assert (0 <= inject_Z us_per_second) as Hc by (unfold Qle; simpl; lia).
    apply round_half_even_monotone, round_to_double_monotone.
    apply Qmult_le_compat_r; [lra | exact Hc].
  - pose proof (fraction_us_bounds_neg _ Fp0 Fp1) as [_ Bp].
    pose proof (fraction_us_bounds_neg _ Fq0 Fq1) as [Bq _].
    unfold us_per_second in *. nia.
Qed.

End Rounding.

(** The doubles 1.8976925 and 2.5e-06, by their exact values: the product of
    the fraction and [1e6] is rounded to a double before it is rounded to an
    integer, which gives 1897692 and 2 where the exact products, a little
    above 1897692.5 and 2.5, would give 1897693 and 3.  The other two are
    the doubles -2.5e-06 and 86399.9999995. *)
Example timedelta_of_floats :
  seconds_to_us (8546447235863785 # 4503599627370496) = 1897692%Z /\
  seconds_to_us (5902958103587057 # 2361183241434822606848) = 2%Z /\
  seconds_to_us (- 5902958103587057 # 2361183241434822606848) = (- 2)%Z /\
  seconds_to_us (742170348744505 # 8589934592) = 86399999999%Z.
Proof. repeat split; vm_compute; reflexivity. Qed.

(** ** Start times *)

Lemma StronglySorted_nth {A} (R : A -> A -> Prop) (l : list A) :
  StronglySorted R l ->
  forall i j a b, i < j -> nth_error l i = Some a -> nth_error l j = Some b -> R a b.
Proof.
  induction 1 as [|x l Hs IH Hall]; intros i j a b Hij Ha Hb.
  - destruct i; discriminate.
  - destruct j as [|j]; [lia|]. simpl in Hb. destruct i as [|i]; simpl in Ha.
    + injection Ha as <-. rewrite Forall_forall in Hall.
      apply Hall. eapply nth_error_In. exact Hb.
    + apply (IH i j); [lia | assumption | assumption].
Qed.

Lemma time_of_offset_within_a_day (q : Q) :
  within_a_day q -> time_of_offset q = Time (seconds_to_us q).
Proof.
  intro H. unfold time_of_offset. f_equal. apply Z.mod_small. exact H.
Qed.

Lemma within_a_day_representable (q : Q) : within_a_day q -> representable q.
Proof.
  unfold within_a_day, representable, datetime_span_us, us_per_day, us_per_second.
  lia.
Qed.

(** The start time of a record bound to the typed event at index [k]. *)
Lemma binds_typed_start (words : list Word) (rs : Z) (E : list TimedEvent)
    (m : nat * nat) (r : RecitationSurahTimestamp) :
  Forall (fun e => within_a_day (ev_start e)) E ->
  binds words rs (map event_json E) m r ->
  exists e, nth_error E (snd m) = Some e /\
            ts_start_time r = Time (seconds_to_us (ev_start e)).
Proof.
  intros Hday (wd & start & Hk & _ & _ & _ & Hst & Ht & _).
  rewrite nth_error_map in Hk.
  destruct (nth_error E (snd m)) as [e|] eqn:He; [|discriminate].
  injection Hk as <-. exists e. split; [reflexivity|].
  assert (within_a_day (ev_start e)) as Hd.
  { rewrite Forall_forall in Hday. apply Hday. eapply nth_error_In. exact He. }
  change (getitem (event_json e) "start") with (Ok (VNum (ev_start e))) in Hst.
  injection Hst as <-.
  rewrite (time_of_seconds_representable _ (within_a_day_representable _ Hd)) in Ht.
  injection Ht as <-. now apply time_of_offset_within_a_day.
Qed.

Lemma bound_starts_sorted (words : list Word) (rs : Z) (E : list TimedEvent)
    (ms : list (nat * nat)) (added : list RecitationSurahTimestamp) :
  StronglySorted Qle (map ev_start E) ->
  Forall (fun e => within_a_day (ev_start e)) E ->
  Forall2 (binds words rs (map event_json E)) ms added ->
  forall lo, ascending lo (map snd ms) ->
    StronglySorted time_le (map ts_start_time added) /\
    Forall (fun r => exists k e, lo <= k /\ nth_error E k = Some e /\
                       ts_start_time r = Time (seconds_to_us (ev_start e))) added.
Proof.
  intros Hsorted Hday Hall.
  induction Hall as [|m r ms added Hb _ IH]; intros lo Hasc; simpl.
  - split; constructor.
  - simpl in Hasc. destruct Hasc as [Hlo Hasc].
    destruct (IH _ Hasc) as [IHs IHf].
    destruct (binds_typed_start _ _ _ _ _ Hday Hb) as (e & He & Hst).
    split.
    + constructor; [exact IHs|].
      apply Forall_map. eapply Forall_impl; [|exact IHf].
      intros r' (k' & e' & Hk' & He' & Hst').
      unfold time_le. rewrite Hst, Hst'. simpl.
      apply seconds_to_us_monotone.
      apply (StronglySorted_nth Qle _ Hsorted (snd m) k');
        [lia | | ]; rewrite nth_error_map; [now rewrite He | now rewrite He'].
    + constructor.
      * exists (snd m), e. now repeat split.
      * eapply Forall_impl; [|exact IHf].
        intros r' (k' & e' & Hk' & He' & Hst'). exists k', e'.
        repeat split; [lia | assumption | assumption].
Qed.

(** C5, as the code has it. When the start offsets of the events never
    decrease along the events and all fall within the first day, the start
    times of the records created never decrease along the records, which
    come in the order of their words. *)
Theorem C5_sorted_starts_give_sorted_times (words : list Word) (rs : Z)
    (E : list TimedEvent) (w : world) :
  Sorted Qle (map ev_start E) ->
  Forall (fun e => within_a_day (ev_start e)) E ->
  Sorted time_le (map ts_start_time (emitted words rs (map event_json E) w)).
Proof.
  intros Hsorted Hday.
  apply Sorted_StronglySorted in Hsorted; [|exact Qle_trans].
  destruct (emitted_run words rs (map event_json E) w) as (ms & Hall & _ & Hk).
  apply StronglySorted_Sorted.
  exact (proj1 (bound_starts_sorted words rs E ms _ Hsorted Hday Hall 0 Hk)).
Qed.

Lemma C5_sorted_starts_give_sorted_times_witness :
  Sorted time_le
    (map ts_start_time
       (emitted [word 1 "a"; word 2 "b"; word 3 "a"; word 4 "c"] 7
          (map event_json [event "a" 0 (Some (1 # 2)); event "c" 1 (Some (6 # 5))])
          no_rows)).
Proof.
  apply C5_sorted_starts_give_sorted_times.
  - repeat constructor. unfold Qle; simpl; lia.
  - repeat constructor; vm_compute; discriminate.
Defined.

(** C5 as stated fails: nothing orders the start offsets the service sends.
    With words a, b and the events a at 5 s, b at 1 s, both are bound and the
    second record starts before the first. *)
Lemma C5_counterexample :
  let words := [word 1 "a"; word 2 "b"] in
  let E := [event "a" 5 None; event "b" 1 None] in
  map ts_word (emitted words 7 (map event_json E) no_rows) = words /\
  map ts_start_time (emitted words 7 (map event_json E) no_rows)
    = [Time 5000000; Time 1000000] /\
  ~ Sorted time_le (map ts_start_time (emitted words 7 (map event_json E) no_rows)).
Proof.
  intros words E.
  assert (map ts_start_time (emitted words 7 (map event_json E) no_rows)
          = [Time 5000000; Time 1000000]) as Hs by (vm_compute; reflexivity).
  split; [vm_compute; reflexivity|]. split; [exact Hs|].
  rewrite Hs. intro H. inversion H as [|? ? _ Hd]; subst.
  inversion Hd as [|? ? Hle]; subst. unfold time_le in Hle. simpl in Hle. lia.
Qed.

(** ** The run as a whole *)

Lemma insert_notifications_nil (w : world) : insert_notifications [] w = w.
Proof. destruct w; unfold insert_notifications; simpl. now rewrite app_nil_r. Qed.

Lemma notify_run (user : option Z) (n : Z -> Notification) (w : world) :
  notify user n w = (Ok tt, insert_notifications (notified user n) w).
Proof.
  destruct user; simpl; [reflexivity|].
  unfold ret. now rewrite insert_notifications_nil.
Qed.

Lemma matcher_app (words : list Word) (rs : Z) (before after : list value) :
  forall i w,
    matcher words rs (before ++ after) i w =
    bind (matcher words rs before i) (fun j => matcher words rs after j) w.
Proof.
  induction before as [|wd before IH]; intros i w; simpl; [reflexivity|].
  unfold bind.
  destruct (loop_body words rs i wd w) as [[j|e] w']; [|reflexivity].
  rewrite IH. reflexivity.
Qed.

Lemma loop_body_raise_unchanged (words : list Word) (rs : Z) (i : nat) (wd : value)
    (w : world) (e : exn) :
  fst (loop_body words rs i wd w) = Raise e ->
  loop_body words rs i wd w = (Raise e, w).
Proof.
  intro H.
  destruct (loop_body_cases words rs i wd w)
    as [(c & _ & _ & E) | [(idx & r & _ & _ & E) | (e' & E)]];
    rewrite E in H |- *; simpl in H; congruence.
Qed.

Lemma missing_input_test (audio_url : option string) (text : string) :
  url_truthy audio_url = false \/ text = EmptyString ->
  url_truthy audio_url && negb (String.eqb text EmptyString) = false.
Proof.
  intros [H | ->]; [now rewrite H|].
  rewrite String.eqb_refl. apply andb_false_r.
Qed.

Lemma present_input_test (audio_url : option string) (text : string) :
  url_truthy audio_url = true -> text <> EmptyString ->
  url_truthy audio_url && negb (String.eqb text EmptyString) = true.
Proof.
  intros -> H. apply String.eqb_neq in H. now rewrite H.
Qed.

(** C6, as the code has it. With an empty audio URL or an empty text the
    run returns the missing-input failure, sends nothing to the alignment
    service, whatever the service would have answered, and writes nothing
    but the failure notification, which it creates for the creator of the
    recitation when there is one: the store it leaves is spelled out. *)
Theorem C6_missing_input (str : exn -> string) (post : request -> res response)
    (settings : Settings) (recitation : Recitation) (rs : Z)
    (audio_url : option string) (words : list Word) (w : world) :
  url_truthy audio_url = false \/ join " " (map word_text words) = EmptyString ->
  generate_recitation_surah_timestamps_task str post settings recitation rs
    audio_url words w
  = (Ok "Failed: missing audio_url or text",
     {| timestamps := timestamps w;
        notifications :=
          notifications w ++
          match creator recitation with
          | Some user =>
              [{| n_user := user;
                  n_resource_controller := "quran.tasks.generate_recitation_timestamps";
                  n_resource_action := EmptyString;
                  n_resource_uuid := uuid recitation;
                  n_status := STATUS_NOTHING;
                  n_description := "Failed to generate recitation timestamps";
                  n_message :=
                    "Failed to generate recitation timestamps for recitation "
                    ++ match uuid recitation with
                       | Some u => u
                       | None => EmptyString
                       end
                    ++ ": missing audio_url or text";
                  n_message_type := MESSAGE_TYPE_FAILED |}]
          | None => []
          end;
        calls := calls w |}).
Proof.
  intro H. unfold generate_recitation_surah_timestamps_task.
  rewrite (missing_input_test _ _ H).
  unfold try_except, bind. destruct (creator recitation) as [user|]; simpl.
  - reflexivity.
  - unfold ret. rewrite app_nil_r. now destruct w.
Qed.

Lemma C6_missing_input_witness :
  let answer := fun _ : request => Ok {| status_code := 200; json := Ok (VList []) |} in
  let settings := {| FORCED_ALIGNMENT_API_URL := "http://align";
                     FORCED_ALIGNMENT_SECRET_KEY := None |} in
  let recitation := {| creator := Some 3%Z; uuid := Some "r-1" |} in
  generate_recitation_surah_timestamps_task (fun _ => "error") answer settings
    recitation 7 (Some EmptyString) [word 1 "a"] no_rows
  = (Ok "Failed: missing audio_url or text",
     {| timestamps := [];
        notifications :=
          [{| n_user := 3;
              n_resource_controller := "quran.tasks.generate_recitation_timestamps";
              n_resource_action := EmptyString;
              n_resource_uuid := Some "r-1";
              n_status := STATUS_NOTHING;
              n_description := "Failed to generate recitation timestamps";
              n_message := "Failed to generate recitation timestamps for recitation r-1: missing audio_url or text";
              n_message_type := MESSAGE_TYPE_FAILED |}];
        calls := [] |}).
Proof.
  intros answer settings recitation.
  refine (C6_missing_input (fun _ => "error") answer settings recitation 7
            (Some EmptyString) [word 1 "a"] no_rows _).
  left. reflexivity.
Defined.

(** C6 as stated fails: a recitation without a creator has nobody to notify.
    With an empty audio URL the run returns the failure text and sends no
    call, but it creates no notification at all. *)
Lemma C6_counterexample :
  let answer := fun _ : request => Ok {| status_code := 200; json := Ok (VList []) |} in
  let settings := {| FORCED_ALIGNMENT_API_URL := "http://align";
                     FORCED_ALIGNMENT_SECRET_KEY := None |} in
  let recitation := {| creator := None; uuid := Some "r-1" |} in
  let run := generate_recitation_surah_timestamps_task (fun _ => "error") answer
               settings recitation 7 (Some EmptyString) [word 1 "a"] no_rows in
  url_truthy (Some EmptyString) = false /\
  fst run = Ok "Failed: missing audio_url or text" /\
  notifications (snd run) = [] /\
  calls (snd run) = [].
Proof. repeat split. Qed.

(** C7, as the code has it. When the service answers with a 4xx or 5xx
    status, the run sends that one call, creates no record, leaves exactly
    one failure notification when the recitation has a creator, and returns
    the failure text with the error in it: the exception does not leave the
    run. *)
Theorem C7_error_status (str : exn -> string) (post : request -> res response)
    (settings : Settings) (recitation : Recitation) (rs : Z)
    (audio_url : option string) (words : list Word) (w : world)
    (resp : response) :
  let rq := align_request settings audio_url (join " " (map word_text words)) in
  url_truthy audio_url = true ->
  join " " (map word_text words) <> EmptyString ->
  post rq = Ok resp ->
  (400 <= status_code resp < 600)%Z ->
  generate_recitation_surah_timestamps_task str post settings recitation rs
    audio_url words w
  = (Ok ("Failed to generate timestamps: " ++ str (HTTPError (status_code resp))),
     insert_notifications
       (notified (creator recitation)
          (failure_notification "quran.generate_recitation_timestamps"
             recitation (str (HTTPError (status_code resp)))))
       (log_call rq w)).
Proof.
  intros rq Hurl Htext Hpost [Hlo Hhi].
  unfold generate_recitation_surah_timestamps_task.
  rewrite (present_input_test _ _ Hurl Htext).
  unfold try_except, bind, requests_post. fold rq. rewrite Hpost.
  unfold lift, raise_for_status.
  apply Z.leb_le in Hlo. apply Z.ltb_lt in Hhi. rewrite Hlo, Hhi. simpl.
  rewrite notify_run. reflexivity.
Qed.

Lemma C7_error_status_witness :
  let answer := fun _ : request => Ok {| status_code := 500; json := Raise (RequestException "not JSON") |} in
  let settings := {| FORCED_ALIGNMENT_API_URL := "http://align";
                     FORCED_ALIGNMENT_SECRET_KEY := Some "s3cret" |} in
  let recitation := {| creator := Some 3%Z; uuid := Some "r-1" |} in
  generate_recitation_surah_timestamps_task (fun _ => "error") answer settings
    recitation 7 (Some "http://audio/1.mp3") [word 1 "a"; word 2 "b"] no_rows
  = (Ok "Failed to generate timestamps: error",
     {| timestamps := [];
        notifications :=
          [failure_notification "quran.generate_recitation_timestamps"
             recitation "error" 3%Z];
        calls := [align_request settings (Some "http://audio/1.mp3") "a b"] |}).
Proof.
  intros answer settings recitation.
  refine (C7_error_status (fun _ => "error") answer settings recitation 7
            (Some "http://audio/1.mp3") [word 1 "a"; word 2 "b"] no_rows
            {| status_code := 500; json := Raise (RequestException "not JSON") |}
            _ _ _ _).
  - reflexivity.
  - discriminate.
  - reflexivity.
  - simpl. lia.
Defined.

(** C7 as stated fails: [raise_for_status] lets a 3xx answer through.  A 300
    answer whose body is an empty JSON list is outside 2xx, and the run ends
    as a success, with the success notification. *)
Lemma C7_counterexample :
  let answer := fun _ : request => Ok {| status_code := 300; json := Ok (VList []) |} in
  let settings := {| FORCED_ALIGNMENT_API_URL := "http://align";
                     FORCED_ALIGNMENT_SECRET_KEY := None |} in
  let recitation := {| creator := Some 3%Z; uuid := Some "r-1" |} in
  ~ (200 <= 300 < 300)%Z /\
  generate_recitation_surah_timestamps_task (fun _ => "error") answer settings
    recitation 7 (Some "http://audio/1.mp3") [word 1 "a"] no_rows
  = (Ok "timestamps generated",
     {| timestamps := [];
        notifications := [success_notification recitation 3%Z];
        calls := [align_request settings (Some "http://audio/1.mp3") "a"] |}).
Proof.
  split; [lia | vm_compute; reflexivity].
Qed.

(** C10. When an iteration of the loop raises after earlier events went
    through, the run returns the failure text and leaves the failure
    notification, and the store still holds every record created for the
    earlier events: nothing is rolled back. *)
Theorem C10_partial_writes_persist (str : exn -> string)
    (post : request -> res response) (settings : Settings)
    (recitation : Recitation) (rs : Z) (audio_url : option string)
    (words : list Word) (w w1 : world) (resp : response)
    (alignment_data wd : value) (before after : list value) (i : nat) (e : exn) :
  let rq := align_request settings audio_url (join " " (map word_text words)) in
  url_truthy audio_url = true ->
  join " " (map word_text words) <> EmptyString ->
  post rq = Ok resp ->
  raise_for_status resp = Ok tt ->
  json resp = Ok alignment_data ->
  iterate alignment_data = Ok (before ++ wd :: after)%list ->
  matcher words rs before 0 (log_call rq w) = (Ok i, w1) ->
  fst (loop_body words rs i wd w1) = Raise e ->
  generate_recitation_surah_timestamps_task str post settings recitation rs
    audio_url words w
  = (Ok ("Failed to generate timestamps: " ++ str e),
     insert_notifications
       (notified (creator recitation)
          (failure_notification "quran.generate_recitation_timestamps"
             recitation (str e))) w1)
  /\ timestamps w1 = (timestamps w ++ emitted words rs before (log_call rq w))%list.
Proof.
  intros rq Hurl Htext Hpost Hstatus Hjson Hiter Hbefore Hraise.
  split.
  - unfold generate_recitation_surah_timestamps_task.
    rewrite (present_input_test _ _ Hurl Htext).
    unfold try_except. unfold bind at 1. unfold requests_post. fold rq. rewrite Hpost.
    unfold bind at 1. unfold lift at 1. rewrite Hstatus.
    unfold bind at 1. unfold lift at 1. rewrite Hjson.
    unfold bind at 1. unfold lift at 1. rewrite Hiter.
    unfold bind at 1. rewrite matcher_app. unfold bind at 1. rewrite Hbefore.
    cbn [matcher]. unfold bind at 1.
    rewrite (loop_body_raise_unchanged _ _ _ _ _ _ Hraise).
    unfold bind. rewrite notify_run. reflexivity.
  - pose proof (matcher_emitted words rs before (log_call rq w)) as Hem.
    rewrite Hbefore in Hem. simpl in Hem. rewrite Hem. reflexivity.
Qed.

Lemma C10_partial_writes_persist_witness :
  let words := [word 1 "a"; word 2 "b"] in
  let first := event_json (event "a" 0 (Some (1 # 2))) in
  let broken := VDict [("text", VStr "b")] in
  let answer := fun _ : request =>
                  Ok {| status_code := 200; json := Ok (VList [first; broken]) |} in
  let settings := {| FORCED_ALIGNMENT_API_URL := "http://align";
                     FORCED_ALIGNMENT_SECRET_KEY := None |} in
  let recitation := {| creator := Some 3%Z; uuid := Some "r-1" |} in
  let rq := align_request settings (Some "http://audio/1.mp3") "a b" in
  let kept := record_of 7 (word 1 "a", event "a" 0 (Some (1 # 2))) in
  generate_recitation_surah_timestamps_task (fun _ => "error") answer settings
    recitation 7 (Some "http://audio/1.mp3") words no_rows
  = (Ok "Failed to generate timestamps: error",
     {| timestamps := [kept];
        notifications :=
          [failure_notification "quran.generate_recitation_timestamps"
             recitation "error" 3%Z];
        calls := [rq] |}).
Proof.
  intros words first broken answer settings recitation rq kept.
  refine (proj1 (C10_partial_writes_persist (fun _ => "error") answer settings
                   recitation 7 (Some "http://audio/1.mp3") words no_rows
                   (insert_timestamps [kept] (log_call rq no_rows))
                   {| status_code := 200; json := Ok (VList [first; broken]) |}
                   (VList [first; broken]) broken [first] [] 1 (KeyError "start")
                   _ _ _ _ _ _ _ _)).
  - reflexivity.
  - discriminate.
  - reflexivity.
  - reflexivity.
  - reflexivity.
  - reflexivity.
  - vm_compute. reflexivity.
  - reflexivity.
Defined.

(** ** More on the run: what every run does *)

(** The run, path by path. *)
Lemma task_paths (str : exn -> string) (post : request -> res response)
    (settings : Settings) (recitation : Recitation) (rs : Z)
    (audio_url : option string) (words : list Word) (w : world) :
  let text := join " " (map word_text words) in
  let rq := align_request settings audio_url text in
  let failed := fun (e : exn) (w1 : world) =>
    (Ok ("Failed to generate timestamps: " ++ str e),
     insert_notifications
       (notified (creator recitation)
          (failure_notification "quran.generate_recitation_timestamps"
             recitation (str e))) w1) in
  generate_recitation_surah_timestamps_task str post settings recitation rs
    audio_url words w
  = if url_truthy audio_url && negb (String.eqb text EmptyString)
    then match alignment_events post rq with
         | Ok events =>
             match matcher words rs events 0 (log_call rq w) with
             | (Ok _, w1) =>
                 (Ok "timestamps generated",
                  insert_notifications
                    (notified (creator recitation) (success_notification recitation)) w1)
             | (Raise e, w1) => failed e w1
             end
         | Raise e => failed e (log_call rq w)
         end
    else (Ok "Failed: missing audio_url or text",
          insert_notifications
            (notified (creator recitation)
               (failure_notification "quran.tasks.generate_recitation_timestamps"
                  recitation "missing audio_url or text")) w).
Proof.
  intros text rq failed.
  unfold generate_recitation_surah_timestamps_task. fold text. fold rq.
  destruct (url_truthy audio_url && negb (String.eqb text EmptyString)).
  - unfold try_except, alignment_events.
    unfold bind at 1. unfold requests_post.
    destruct (post rq) as [resp|e]; [|unfold bind; rewrite notify_run; reflexivity].
    unfold bind at 1. unfold lift at 1.
    destruct (raise_for_status resp) as [[]|e];
      [|unfold bind; rewrite notify_run; reflexivity].
    unfold bind at 1. unfold lift at 1.
    destruct (json resp) as [data|e]; [|unfold bind; rewrite notify_run; reflexivity].
    unfold bind at 1. unfold lift at 1.
    destruct (iterate data) as [events|e];
      [|unfold bind; rewrite notify_run; reflexivity].
    unfold bind at 1.
    destruct (matcher words rs events 0 (log_call rq w)) as [[c|e] w1];
      unfold bind; rewrite notify_run; reflexivity.
  - unfold try_except, bind. rewrite notify_run. reflexivity.
Qed.

Lemma matcher_keeps_the_rest (words : list Word) (rs : Z) (events : list value)
    (w : world) :
  notifications (snd (matcher words rs events 0 w)) = notifications w /\
  calls (snd (matcher words rs events 0 w)) = calls w.
Proof. rewrite matcher_emitted. split; reflexivity. Qed.

(** X1. Every run returns a text, never an exception, and leaves exactly one
    notification when the recitation has a creator and none otherwise; the
    notification is a success exactly when the text returned is
    'timestamps generated'. *)
Theorem X1_run_returns_and_notifies_once (str : exn -> string)
    (post : request -> res response) (settings : Settings)
    (recitation : Recitation) (rs : Z) (audio_url : option string)
    (words : list Word) (w : world) :
  exists (msg : string) (n : Z -> Notification),
    fst (generate_recitation_surah_timestamps_task str post settings recitation rs
           audio_url words w) = Ok msg /\
    notifications (snd (generate_recitation_surah_timestamps_task str post settings
                          recitation rs audio_url words w))
      = (notifications w ++ notified (creator recitation) n)%list /\
    forall u : Z,
      n_user (n u) = u /\
      (n_message_type (n u) = MESSAGE_TYPE_SUCCESS <-> msg = "timestamps generated").
Proof.
  rewrite task_paths. cbv zeta.
  set (rq := align_request settings audio_url (join " " (map word_text words))).
  destruct (url_truthy audio_url && negb _).
  - destruct (alignment_events post rq) as [events|e].
    + destruct (matcher_keeps_the_rest words rs events (log_call rq w)) as [Hn _].
      destruct (matcher words rs events 0 (log_call rq w)) as [[c|e] w1];
        simpl in Hn; eexists _, _; simpl; rewrite Hn;
        (split; [reflexivity|]); (split; [reflexivity|]);
        intro u; (split; [reflexivity|]); split; intro H; try reflexivity; discriminate H.
    + eexists _, _; simpl.
      (split; [reflexivity|]); (split; [reflexivity|]).
      intro u; (split; [reflexivity|]); split; intro H; discriminate H.
  - eexists _, _; simpl.
    (split; [reflexivity|]); (split; [reflexivity|]).
    intro u; (split; [reflexivity|]); split; intro H; discriminate H.
Qed.

(** X2. A run sends at most one call to the alignment service, whatever the
    service does: exactly the call of lines 167 to 176 when the audio URL and
    the text are both non-empty, and none otherwise. *)
Theorem X2_one_call_at_most (str : exn -> string) (post : request -> res response)
    (settings : Settings) (recitation : Recitation) (rs : Z)
    (audio_url : option string) (words : list Word) (w : world) :
  let text := join " " (map word_text words) in
  calls (snd (generate_recitation_surah_timestamps_task str post settings
                recitation rs audio_url words w))
  = (calls w ++
     if url_truthy audio_url && negb (String.eqb text EmptyString)
     then [align_request settings audio_url text] else [])%list.
Proof.
  intro text. rewrite task_paths. cbv zeta. fold text.
  set (rq := align_request settings audio_url text).
  destruct (url_truthy audio_url && negb _).
  - destruct (alignment_events post rq) as [events|e]; [|reflexivity].
    destruct (matcher_keeps_the_rest words rs events (log_call rq w)) as [_ Hc].
    destruct (matcher words rs events 0 (log_call rq w)) as [[c|e] w1];
      simpl in Hc; simpl; rewrite Hc; reflexivity.
  - simpl. now rewrite app_nil_r.
Qed.

(** ** The loop does not read the store *)

Lemma loop_body_ignores_store (words : list Word) (rs : Z) (i : nat) (wd : value)
    (w w' : world) :
  exists (r : res nat) (added : list RecitationSurahTimestamp),
    loop_body words rs i wd w = (r, insert_timestamps added w) /\
    loop_body words rs i wd w' = (r, insert_timestamps added w').
Proof.
  unfold loop_body, bind, lift.
  destruct (scan (skipn i words) i wd) as [idx|e];
    [|exists (Raise e), []; now rewrite !insert_timestamps_nil].
  destruct (nth_error words idx) as [word_obj|];
    [|exists (Ok idx), []; unfold ret; now rewrite !insert_timestamps_nil].
  destruct (getitem wd "start") as [start|e];
    [|exists (Raise e), []; now rewrite !insert_timestamps_nil].
  destruct (time_of_seconds start) as [t|e];
    [|exists (Raise e), []; now rewrite !insert_timestamps_nil].
  destruct (end_time_of wd) as [t'|e];
    [|exists (Raise e), []; now rewrite !insert_timestamps_nil].
  eexists (Ok (S idx)), [_]. split; reflexivity.
Qed.

Lemma matcher_ignores_store (words : list Word) (rs : Z) (events : list value) :
  forall (i : nat) (w w' : world),
  exists (r : res nat) (added : list RecitationSurahTimestamp),
    matcher words rs events i w = (r, insert_timestamps added w) /\
    matcher words rs events i w' = (r, insert_timestamps added w').
Proof.
  induction events as [|wd events IH]; intros i w w'.
  - exists (Ok i), []. simpl. unfold ret. now rewrite !insert_timestamps_nil.
  - simpl. unfold bind.
    destruct (loop_body_ignores_store words rs i wd w w') as (r & a & E & E').
    rewrite E, E'. destruct r as [j|e]; [|exists (Raise e), a; now split].
    destruct (IH j (insert_timestamps a w) (insert_timestamps a w'))
      as (r & b & F & F').
    exists r, (a ++ b)%list. rewrite F, F', !insert_timestamps_twice. now split.
Qed.

Lemma emitted_of_insert (words : list Word) (rs : Z) (events : list value)
    (w : world) (r : res nat) (added : list RecitationSurahTimestamp) :
  matcher words rs events 0 w = (r, insert_timestamps added w) ->
  emitted words rs events w = added.
Proof.
  intro E. unfold emitted. rewrite E. unfold insert_timestamps. simpl.
  now rewrite skipn_app, skipn_all, Nat.sub_diag.
Qed.

Lemma emitted_ignores_store (words : list Word) (rs : Z) (events : list value)
    (w w' : world) :
  fst (matcher words rs events 0 w) = fst (matcher words rs events 0 w') /\
  emitted words rs events w = emitted words rs events w'.
Proof.
  destruct (matcher_ignores_store words rs events 0 w w') as (r & a & E & E').
  rewrite (emitted_of_insert _ _ _ _ _ _ E), (emitted_of_insert _ _ _ _ _ _ E').
  rewrite E, E'. now split.
Qed.

(** X3. When the audio URL and the text are there, the service hands over a
    list of events and no iteration of the loop raises, the run returns
    'timestamps generated', adds the records of the loop and nothing else to
    the timestamps, and leaves the success notification. *)
Theorem X3_success (str : exn -> string) (post : request -> res response)
    (settings : Settings) (recitation : Recitation) (rs : Z)
    (audio_url : option string) (words : list Word) (w : world)
    (events : list value) (c : nat) :
  let rq := align_request settings audio_url (join " " (map word_text words)) in
  url_truthy audio_url = true ->
  join " " (map word_text words) <> EmptyString ->
  alignment_events post rq = Ok events ->
  fst (matcher words rs events 0 w) = Ok c ->
  generate_recitation_surah_timestamps_task str post settings recitation rs
    audio_url words w
  = (Ok "timestamps generated",
     insert_notifications
       (notified (creator recitation) (success_notification recitation))
       (insert_timestamps (emitted words rs events w) (log_call rq w))).
Proof.
  intros rq Hurl Htext Hev Hok.
  rewrite task_paths. cbv zeta. fold rq.
  rewrite (present_input_test _ _ Hurl Htext), Hev.
  destruct (emitted_ignores_store words rs events w (log_call rq w)) as [Hf He].
  rewrite He. rewrite Hf in Hok.
  pose proof (matcher_emitted words rs events (log_call rq w)) as Hm.
  destruct (matcher words rs events 0 (log_call rq w)) as [[c'|e] w1];
    simpl in Hok, Hm; [|discriminate]. now rewrite Hm.
Qed.

Lemma X3_success_witness :
  let words := [word 1 "a"; word 2 "b"] in
  let first := event "a" 0 (Some (1 # 2)) in
  let second := event "b" (3 # 4) None in
  let answer := fun _ : request =>
    Ok {| status_code := 200;
          json := Ok (VList [event_json first; event_json second]) |} in
  let settings := {| FORCED_ALIGNMENT_API_URL := "http://align";
                     FORCED_ALIGNMENT_SECRET_KEY := Some "key" |} in
  let recitation := {| creator := Some 3%Z; uuid := Some "r-1" |} in
  generate_recitation_surah_timestamps_task (fun _ => "error") answer settings
    recitation 7 (Some "http://audio/1.mp3") words no_rows
  = (Ok "timestamps generated",
     {| timestamps := [record_of 7 (word 1 "a", first); record_of 7 (word 2 "b", second)];
        notifications := [success_notification recitation 3%Z];
        calls := [align_request settings (Some "http://audio/1.mp3") "a b"] |}).
Proof.
  intros words first second answer settings recitation.
  refine (X3_success (fun _ => "error") answer settings recitation 7
            (Some "http://audio/1.mp3") words no_rows
            [event_json first; event_json second] 2 _ _ _ _).
  - reflexivity.
  - discriminate.
  - reflexivity.
  - vm_compute. reflexivity.
Defined.

(** X4. When the events cannot be had (the call raises, the status is 4xx or
    5xx, the body does not decode, or what it decodes to cannot be iterated)
    the run returns the failure text with that error, has sent its one call,
    creates no record and leaves the failure notification. *)
Theorem X4_no_events_no_records (str : exn -> string)
    (post : request -> res response) (settings : Settings)
    (recitation : Recitation) (rs : Z) (audio_url : option string)
    (words : list Word) (w : world) (e : exn) :
  let rq := align_request settings audio_url (join " " (map word_text words)) in
  url_truthy audio_url = true ->
  join " " (map word_text words) <> EmptyString ->
  alignment_events post rq = Raise e ->
  generate_recitation_surah_timestamps_task str post settings recitation rs
    audio_url words w
  = (Ok ("Failed to generate timestamps: " ++ str e),
     insert_notifications
       (notified (creator recitation)
          (failure_notification "quran.generate_recitation_timestamps"
             recitation (str e)))
       (log_call rq w)).
Proof.
  intros rq Hurl Htext Hev.
  rewrite task_paths. cbv zeta. fold rq.
  now rewrite (present_input_test _ _ Hurl Htext), Hev.
Qed.

Lemma X4_no_events_no_records_witness :
  let answer := fun _ : request => Ok {| status_code := 200; json := Ok (VNum 5) |} in
  let settings := {| FORCED_ALIGNMENT_API_URL := "http://align";
                     FORCED_ALIGNMENT_SECRET_KEY := None |} in
  let recitation := {| creator := Some 3%Z; uuid := Some "r-1" |} in
  generate_recitation_surah_timestamps_task (fun _ => "error") answer settings
    recitation 7 (Some "http://audio/1.mp3") [word 1 "a"] no_rows
  = (Ok "Failed to generate timestamps: error",
     {| timestamps := [];
        notifications :=
          [failure_notification "quran.generate_recitation_timestamps"
             recitation "error" 3%Z];
        calls := [align_request settings (Some "http://audio/1.mp3") "a"] |}).
Proof.
  intros answer settings recitation.
  refine (X4_no_events_no_records (fun _ => "error") answer settings recitation 7
            (Some "http://audio/1.mp3") [word 1 "a"] no_rows TypeError _ _ _).
  - reflexivity.
  - discriminate.
  - reflexivity.
Defined.

(** ** More on the loop *)

(** X5. Every record the loop creates is for a word of the list it was given
    and for the association it was given. *)
Theorem X5_records_belong (words : list Word) (rs : Z) (events : list value)
    (w : world) :
  Forall (fun r => In (ts_word r) words /\ ts_recitation_surah r = rs)
         (emitted words rs events w).
Proof.
  destruct (emitted_run words rs events w) as (ms & Hall & _).
  induction Hall as [|m r ms added Hb _ IH]; constructor; [|exact IH].
  destruct Hb as (wd & start & _ & Hw & Hrs & _).
  split; [eapply nth_error_In; exact Hw | exact Hrs].
Qed.

(** X6. The records come in the order of the events: each is made from one
    event, later records from later events, and a record holds the word whose
    text is exactly the text of its event, the time of that event's start and
    the end time line 190 gives for that event. *)
Theorem X6_records_follow_events (words : list Word) (rs : Z) (events : list value)
    (w : world) :
  exists ks : list nat,
    StronglySorted lt ks /\
    Forall2 (fun k r =>
               exists word_data start,
                 nth_error events k = Some word_data /\
                 getitem word_data "text" = Ok (VStr (word_text (ts_word r))) /\
                 getitem word_data "start" = Ok start /\
                 time_of_seconds start = Ok (ts_start_time r) /\
                 end_time_of word_data = Ok (ts_end_time r))
            ks (emitted words rs events w).
Proof.
  destruct (emitted_run words rs events w) as (ms & Hall & _ & Hk).
  exists (map snd ms). split; [exact (ascending_sorted _ _ Hk)|].
  clear Hk. induction Hall as [|m r ms added Hb _ IH]; simpl; constructor; [|exact IH].
  destruct Hb as (wd & start & Hn & _ & _ & Ht & Hs & Hst & He).
  exists wd, start. repeat split; assumption.
Qed.

Lemma time_of_seconds_in_a_day (v : value) (t : time) :
  time_of_seconds v = Ok t -> in_a_day t.
Proof.
  unfold time_of_seconds. destruct (timedelta_us v) as [us|e]; [|discriminate].
  destruct ((0 <=? us)%Z && (us <? datetime_span_us)%Z); [|discriminate].
  intro H. injection H as <-. unfold in_a_day. simpl.
  apply Z.mod_pos_bound. reflexivity.
Qed.

(** X10. The times a record holds are times of day: its start time, and its
    end time when it has one, lie from 00:00:00 up to, not including, 24 h,
    whatever offsets the events carry. *)
Theorem X10_times_of_day (words : list Word) (rs : Z) (events : list value)
    (w : world) :
  Forall (fun r => in_a_day (ts_start_time r) /\
                   match ts_end_time r with
                   | Some t => in_a_day t
                   | None => True
                   end)
         (emitted words rs events w).
Proof.
  destruct (emitted_run words rs events w) as (ms & Hall & _).
  induction Hall as [|m r ms added Hb _ IH]; constructor; [|exact IH].
  destruct Hb as (wd & start & _ & _ & _ & _ & _ & Hst & He).
  split; [exact (time_of_seconds_in_a_day _ _ Hst)|].
  unfold end_time_of in He.
  destruct (get wd "end") as [e|]; [|discriminate].
  destruct (truthy e).
  - destruct (getitem wd "end") as [e'|]; [|discriminate].
    destruct (time_of_seconds e') as [t|] eqn:Ht; [|discriminate].
    injection He as <-. exact (time_of_seconds_in_a_day _ _ Ht).
  - injection He as <-. exact I.
Qed.

(** X11. An offset of a whole number of seconds is stored exactly, but only
    as a time of day: z seconds become z mod 86400 seconds after midnight, so
    that an offset of a day or more is stored as an earlier time. *)
Theorem X11_whole_seconds_wrap (z : Z) :
  (0 <= z < 315537897600)%Z ->
  time_of_seconds (VNum (inject_Z z)) = Ok (Time ((z mod 86400) * 1000000)).
Proof.
  intro Hz. unfold time_of_seconds, timedelta_us.
  rewrite seconds_to_us_Z. unfold us_per_second at 1 2.
  assert (((0 <=? z * 1000000) && (z * 1000000 <? datetime_span_us))%Z = true) as ->.
  { apply andb_true_intro. split; [apply Z.leb_le | apply Z.ltb_lt];
      unfold datetime_span_us, us_per_day, us_per_second; lia. }
  unfold us_per_day, us_per_second.
  rewrite Z.mul_mod_distr_r by lia. reflexivity.
Qed.

Lemma X11_whole_seconds_wrap_witness :
  time_of_seconds (VNum (inject_Z 90000)) = Ok (Time 3600000000).
Proof.
  refine (X11_whole_seconds_wrap 90000 _). lia.
Defined.

Lemma scan_passes_over (rest : list Word) (wd : value) :
  forall i j, scan rest i wd = Ok j ->
    forall k wk, k < j - i -> nth_error rest k = Some wk ->
      exists t, getitem wd "text" = Ok t /\ str_ne (word_text wk) t = true.
Proof.
  induction rest as [|w0 rest IH]; simpl; intros i j H k wk Hk Hn.
  - destruct k; discriminate.
  - destruct (getitem wd "text") as [t|e]; [|discriminate].
    destruct (str_ne (word_text w0) t) eqn:Hne.
    + destruct k as [|k]; simpl in Hn.
      * injection Hn as <-. now exists t.
      * apply (IH (S i) j H k wk); [lia | exact Hn].
    + injection H as <-. lia.
Qed.

(** An iteration that binds its event binds it to the first word the scan
    stops at; one that drops it leaves the cursor past the last word. *)
Lemma loop_body_first_fit (words : list Word) (rs : Z) (i : nat) (wd : value)
    (w : world) :
  (exists j, nth_error words j = None /\ loop_body words rs i wd w = (Ok j, w))
  \/ (exists idx r,
        i <= idx /\ binds words rs [wd] (idx, 0) r /\
        (forall j wj, i <= j < idx -> nth_error words j = Some wj ->
           exists t, getitem wd "text" = Ok t /\ str_ne (word_text wj) t = true) /\
        loop_body words rs i wd w = (Ok (S idx), insert_timestamps [r] w))
  \/ (exists e, loop_body words rs i wd w = (Raise e, w)).
Proof.
  unfold loop_body, bind, lift.
  destruct (scan (skipn i words) i wd) as [idx|e] eqn:Hs; [|right; right; eauto].
  pose proof (scan_bounds _ _ _ _ Hs) as Hb.
  destruct (nth_error words idx) as [word_obj|] eqn:Hn.
  - destruct (getitem wd "start") as [start|e] eqn:Hst; [|right; right; eauto].
    destruct (time_of_seconds start) as [t|e] eqn:Ht; [|right; right; eauto].
    destruct (end_time_of wd) as [t'|e] eqn:He; [|right; right; eauto].
    right; left. eexists idx, _. split; [lia|]. split; [|split; [|reflexivity]].
    + exists wd, start. simpl. repeat split; try assumption.
      apply (scan_stops_on_match _ _ _ _ _ Hs).
      rewrite nth_error_skipn. replace (i + (idx - i)) with idx by lia. exact Hn.
    + intros j wj Hj Hwj.
      apply (scan_passes_over _ _ _ _ Hs (j - i) wj); [lia|].
      rewrite nth_error_skipn. replace (i + (j - i)) with j by lia. exact Hwj.
  - left. exists idx. unfold ret. split; [assumption | reflexivity].
Qed.

(** Past the last word no event is looked at. *)
Lemma matcher_past_end (words : list Word) (rs : Z) (events : list value) :
  forall j w, nth_error words j = None -> matcher words rs events j w = (Ok j, w).
Proof.
  induction events as [|wd events IH]; intros j w Hj; simpl; [reflexivity|].
  unfold bind, loop_body, bind, lift.
  rewrite skipn_all2 by (now apply nth_error_None).
  cbn [scan]. rewrite Hj. unfold ret. now apply IH.
Qed.

Lemma first_fits_shift (words : list Word) (wd : value) (events : list value)
    (ms : list (nat * nat)) :
  forall lo k, first_fits words events lo k ms ->
    first_fits words (wd :: events) lo (S k) (map shift ms).
Proof.
  induction ms as [|m ms IH]; simpl; intros lo k H; [exact I|].
  destruct H as (Hk & Hlo & Hover & Hrest).
  split; [now rewrite Hk|]. split; [exact Hlo|]. split; [exact Hover|].
  now apply IH.
Qed.

Lemma first_fits_in_a_row (words : list Word) (events : list value)
    (ms : list (nat * nat)) :
  forall lo k, first_fits words events lo k ms -> map snd ms = seq k (length ms).
Proof.
  induction ms as [|m ms IH]; simpl; intros lo k H; [reflexivity|].
  destruct H as (Hk & _ & _ & Hrest). rewrite Hk. f_equal.
  exact (IH _ _ Hrest).
Qed.

Lemma matcher_first_fits (words : list Word) (rs : Z) (events : list value) :
  forall (i : nat) (w : world),
  exists (ms : list (nat * nat)) (added : list RecitationSurahTimestamp),
    snd (matcher words rs events i w) = insert_timestamps added w /\
    Forall2 (binds words rs events) ms added /\
    first_fits words events i 0 ms.
Proof.
  induction events as [|wd events IH]; intros i w.
  - exists [], []. simpl. rewrite insert_timestamps_nil.
    repeat split; constructor.
  - simpl. unfold bind.
    destruct (loop_body_first_fit words rs i wd w)
      as [(j & Hj & E) | [(idx & r & Hidx & Hb & Hover & E) | (e & E)]]; rewrite E.
    + exists [], []. rewrite (matcher_past_end _ _ _ _ _ Hj). simpl.
      rewrite insert_timestamps_nil. repeat split; constructor.
    + destruct (IH (S idx) (insert_timestamps [r] w)) as (ms & added & Hw & Hall & Hf).
      exists ((idx, 0) :: map shift ms), (r :: added).
      split; [rewrite Hw; apply insert_timestamps_twice|].
      split; [constructor; [now apply binds_head | now apply Forall2_binds_shift]|].
      simpl. split; [reflexivity|]. split; [exact Hidx|].
      split; [|now apply first_fits_shift].
      intros j wj Hj Hwj. destruct (Hover j wj Hj Hwj) as (t & Ht & Hne).
      now exists wd, t.
    + exists [], []. simpl. rewrite insert_timestamps_nil.
      repeat split; constructor.
Qed.

(** X12. The loop is greedy and never comes back.  The records of a run are
    made from the first events, the k-th record from the k-th event: once an
    event is left without a record, no later event gets one.  And each event
    is bound to the first word, past the word of the record before, whose
    text is the event's: every word the cursor passes over on the way has
    another text. *)
Theorem X12_first_word_first_events (words : list Word) (rs : Z)
    (events : list value) (w : world) :
  exists ms : list (nat * nat),
    Forall2 (binds words rs events) ms (emitted words rs events w) /\
    map snd ms = seq 0 (length ms) /\
    first_fits words events 0 0 ms.
Proof.
  destruct (matcher_first_fits words rs events 0 w) as (ms & added & Hw & Hall & Hf).
  exists ms. split; [|split; [|exact Hf]].
  - unfold emitted. rewrite Hw. unfold insert_timestamps. simpl.
    now rewrite skipn_app, skipn_all, Nat.sub_diag.
  - exact (first_fits_in_a_row _ _ _ _ _ Hf).
Qed.

Lemma join_empty (l : list string) :
  join " " l = EmptyString <-> l = [] \/ l = [EmptyString].
Proof.
  split.
  - destruct l as [|x [|y l]]; simpl; intro H.
    + now left.
    + right. now subst.
    + destruct x; discriminate.
  - intros [-> | ->]; reflexivity.
Qed.

(** X13. A run takes the missing-input exit exactly when the audio URL is
    empty or there is no word or a single word with an empty text.  With two
    words or more the text is never empty, even when every word's text is,
    and the call is sent. *)
Theorem X13_missing_input_exactly (str : exn -> string)
    (post : request -> res response) (settings : Settings)
    (recitation : Recitation) (rs : Z) (audio_url : option string)
    (words : list Word) (w : world) :
  fst (generate_recitation_surah_timestamps_task str post settings recitation rs
         audio_url words w) = Ok "Failed: missing audio_url or text"
  <-> (url_truthy audio_url = false \/ words = [] \/
       exists wo, words = [wo] /\ word_text wo = EmptyString).
Proof.
  assert (join " " (map word_text words) = EmptyString <->
          words = [] \/ exists wo, words = [wo] /\ word_text wo = EmptyString) as Hj.
  { rewrite join_empty. split.
    - intros [H | H].
      + left. now destruct words.
      + right. destruct words as [|wo [|? ?]]; try discriminate.
        exists wo. split; [reflexivity|]. now injection H.
    - intros [-> | (wo & -> & H)]; [now left|]. right. simpl. now rewrite H. }
  rewrite <- Hj. rewrite task_paths. cbv zeta.
  set (text := join " " (map word_text words)).
  set (rq := align_request settings audio_url text).
  split.
  - destruct (url_truthy audio_url); [|now left].
    destruct (String.eqb text EmptyString) eqn:Ht; [right; now apply String.eqb_eq|].
    simpl. intro H. exfalso.
    destruct (alignment_events post rq) as [events|e]; [|discriminate H].
    destruct (matcher words rs events 0 (log_call rq w)) as [[c|e] w1]; discriminate H.
  - intro H. now rewrite (missing_input_test _ _ H).
Qed.

(** ** Running again *)

Lemma run_adds (str : exn -> string) (post : request -> res response)
    (settings : Settings) (recitation : Recitation) (rs : Z)
    (audio_url : option string) (words : list Word) (w : world) :
  timestamps (snd (generate_recitation_surah_timestamps_task str post settings
                     recitation rs audio_url words w))
  = (timestamps w ++ added_by_run post settings rs audio_url words)%list.
Proof.
  rewrite task_paths. cbv zeta. unfold added_by_run.
  set (text := join " " (map word_text words)).
  set (rq := align_request settings audio_url text).
  destruct (url_truthy audio_url && negb _); [|simpl; now rewrite app_nil_r].
  destruct (alignment_events post rq) as [events|e]; [|simpl; now rewrite app_nil_r].
  destruct (emitted_ignores_store words rs events no_rows (log_call rq w)) as [_ He].
  rewrite He.
  pose proof (matcher_emitted words rs events (log_call rq w)) as Hm.
  destruct (matcher words rs events 0 (log_call rq w)) as [[c|e] w1];
    simpl in Hm; rewrite Hm; reflexivity.
Qed.

(** X9. A run never removes or changes a stored record and never looks at
    the stored ones: it appends records that depend only on the words and on
    what the service answers.  Run again on the same input with the same
    answer, it stores every one of them a second time. *)
Theorem X9_run_again_duplicates (str : exn -> string)
    (post : request -> res response) (settings : Settings)
    (recitation : Recitation) (rs : Z) (audio_url : option string)
    (words : list Word) :
  let run := generate_recitation_surah_timestamps_task str post settings
               recitation rs audio_url words in
  let added := added_by_run post settings rs audio_url words in
  forall w : world,
    timestamps (snd (run w)) = (timestamps w ++ added)%list /\
    timestamps (snd (run (snd (run w)))) = (timestamps w ++ added ++ added)%list.
Proof.
  intros run added w. unfold run.
  rewrite !run_adds. fold added. split; [reflexivity|]. now rewrite app_assoc.
Qed.

(** ** Typed events, whatever the words *)

Lemma scan_typed (e : TimedEvent) (rest : list Word) :
  forall i, exists j, scan rest i (event_json e) = Ok j.
Proof.
  induction rest as [|wo rest IH]; intro i; simpl; [now exists i|].
  destruct (negb (String.eqb (word_text wo) (ev_text e))); [apply IH | now exists i].
Qed.

Lemma loop_body_typed (words : list Word) (rs : Z) (i : nat) (e : TimedEvent)
    (w : world) :
  well_timed e ->
  exists j w', loop_body words rs i (event_json e) w = (Ok j, w').
Proof.
  intro Hv. unfold loop_body, bind, lift.
  destruct (scan_typed e (skipn i words) i) as [idx ->].
  destruct (nth_error words idx) as [word_obj|]; [|unfold ret; eauto].
  assert (getitem (event_json e) "start" = Ok (VNum (ev_start e))) as -> by reflexivity.
  rewrite (time_of_seconds_representable _ (proj1 Hv)).
  rewrite (end_time_of_event e Hv). unfold create_timestamp, ret. eauto.
Qed.

(** X8. On events that have a text, a start and at most an end, with offsets
    the task can turn into times, the loop never raises, whatever the words
    are and whether or not the texts match. *)
Theorem X8_typed_events_never_raise (words : list Word) (rs : Z)
    (E : list TimedEvent) (w : world) :
  Forall well_timed E ->
  exists c, fst (matcher words rs (map event_json E) 0 w) = Ok c.
Proof.
  intro Hv. generalize 0 as i. revert w.
  induction Hv as [|e E He _ IH]; intros w i; simpl; [now exists i|].
  unfold bind. destruct (loop_body_typed words rs i e w He) as (j & w' & ->).
  apply IH.
Qed.

Lemma X8_typed_events_never_raise_witness :
  exists c,
    fst (matcher [word 1 "a"; word 2 "b"] 7
           (map event_json [event "b" 1 (Some 2%Q); event "zz" 3 None; event "a" 4 None])
           0 no_rows) = Ok c.
Proof.
  apply X8_typed_events_never_raise.
  repeat constructor; vm_compute; intuition discriminate.
Defined.

(** ** Events that are found among the words *)

Lemma embeds_tail (t : string) (ts ws : list string) :
  embeds (t :: ts) ws -> embeds ts ws.
Proof.
  intro H. remember (t :: ts) as l eqn:El. revert t ts El.
  induction H as [ws | t' ts' ws H IH | ts' w ws H IH]; intros t ts El.
  - discriminate.
  - injection El as -> ->. now apply embeds_later.
  - apply embeds_later. exact (IH t ts El).
Qed.

(** The first word that carries the text [t]. *)
Lemma embeds_first_occurrence (t : string) (ts : list string) (T : list Word) :
  embeds (t :: ts) (map word_text T) ->
  exists T1 wo T2,
    T = (T1 ++ wo :: T2)%list /\
    Forall (fun w => word_text w <> t) T1 /\
    word_text wo = t /\
    embeds ts (map word_text T2).
Proof.
  induction T as [|w T IH]; simpl; intro H; [inversion H|].
  destruct (String.eqb (word_text w) t) eqn:Hw.
  - apply String.eqb_eq in Hw. exists [], w, T. repeat split; [constructor | exact Hw |].
    inversion H as [| t0 ts0 ws0 H' | ts0 w0 ws0 H']; subst;
      [assumption | eapply embeds_tail; eassumption].
  - apply String.eqb_neq in Hw.
    inversion H as [| t0 ts0 ws0 H' | ts0 w0 ws0 H']; subst; [congruence|].
    destruct (IH H') as (T1 & wo & T2 & -> & Hall & Hwo & Hrest).
    exists (w :: T1), wo, T2. repeat split; [constructor; assumption | assumption | assumption].
Qed.

Lemma scan_skips (e : TimedEvent) (T1 rest : list Word) :
  Forall (fun w => word_text w <> ev_text e) T1 ->
  forall i, scan (T1 ++ rest) i (event_json e) = scan rest (i + length T1) (event_json e).
Proof.
  induction 1 as [|w T1 Hw _ IH]; intro i; simpl.
  - now rewrite Nat.add_0_r.
  - apply String.eqb_neq in Hw. rewrite Hw. simpl. rewrite IH. f_equal. lia.
Qed.

Lemma loop_body_skip_match (pre T1 T2 : list Word) (wo : Word) (rs : Z)
    (e : TimedEvent) (w : world) :
  Forall (fun w => word_text w <> ev_text e) T1 ->
  word_text wo = ev_text e ->
  well_timed e ->
  loop_body (pre ++ T1 ++ wo :: T2) rs (length pre) (event_json e) w =
  (Ok (S (length pre + length T1)), insert_timestamps [record_of rs (wo, e)] w).
Proof.
  intros Hskip Ht Hv. unfold loop_body, bind, lift.
  rewrite skipn_app, skipn_all, Nat.sub_diag. simpl skipn. simpl app.
  rewrite (scan_skips e T1 (wo :: T2) Hskip).
  assert (scan (wo :: T2) (length pre + length T1) (event_json e)
          = Ok (length pre + length T1)) as ->.
  { simpl. rewrite Ht, String.eqb_refl. reflexivity. }
  rewrite nth_error_app2 by lia.
  replace (length pre + length T1 - length pre) with (length T1) by lia.
  rewrite nth_error_app2, Nat.sub_diag by lia. cbn [nth_error].
  assert (getitem (event_json e) "start" = Ok (VNum (ev_start e))) as -> by reflexivity.
  rewrite (time_of_seconds_representable _ (proj1 Hv)).
  rewrite (end_time_of_event e Hv). reflexivity.
Qed.

Lemma matcher_embedded (rs : Z) (E : list TimedEvent) :
  forall (pre T : list Word) (w : world),
    embeds (map ev_text E) (map word_text T) ->
    Forall well_timed E ->
    exists (c : nat) (ws : list Word),
      matcher (pre ++ T) rs (map event_json E) (length pre) w =
      (Ok c, insert_timestamps (map (record_of rs) (combine ws E)) w) /\
      map word_text ws = map ev_text E.
Proof.
  induction E as [|e E IH]; intros pre T w Hemb Hv.
  - exists (length pre), []. simpl. now rewrite insert_timestamps_nil.
  - simpl in Hemb. inversion Hv as [|? ? He HE]; subst.
    destruct (embeds_first_occurrence _ _ _ Hemb)
      as (T1 & wo & T2 & -> & Hskip & Hwo & Hrest).
    cbn [map matcher]. unfold bind.
    rewrite (loop_body_skip_match pre T1 T2 wo rs e w Hskip Hwo He).
    destruct (IH (pre ++ T1 ++ [wo])%list T2
                 (insert_timestamps [record_of rs (wo, e)] w) Hrest HE)
      as (c & ws & Hm & Hws).
    rewrite !length_app in Hm. simpl in Hm.
    replace (length pre + (length T1 + 1)) with (S (length pre + length T1)) in Hm by lia.
    replace ((pre ++ T1 ++ [wo]) ++ T2)%list with (pre ++ T1 ++ wo :: T2)%list in Hm
      by (now rewrite <- !app_assoc).
    exists c, (wo :: ws). rewrite Hm, insert_timestamps_twice. simpl.
    split; [reflexivity | now rewrite Hwo, Hws].
Qed.

(** X7. When the texts of the events are found, in order, among the texts of
    the words (the service left words out but added and changed none) and
    the offsets are ones the task can turn into times, every event gets its
    record: the records are as many as the events, and the k-th holds a word
    with the text of event k and the time of that event's start. *)
Theorem X7_events_among_words_all_bound (words : list Word) (rs : Z)
    (E : list TimedEvent) (w : world) :
  embeds (map ev_text E) (map word_text words) ->
  Forall well_timed E ->
  map (fun r => word_text (ts_word r)) (emitted words rs (map event_json E) w)
    = map ev_text E /\
  map ts_start_time (emitted words rs (map event_json E) w)
    = map (fun e => time_of_offset (ev_start e)) E.
Proof.
  intros Hemb Hv.
  destruct (matcher_embedded rs E [] words w Hemb Hv) as (c & ws & Hm & Hws).
  simpl in Hm. rewrite (emitted_of_insert _ _ _ _ _ _ Hm).
  assert (length ws = length E) as Hlen
      by (rewrite <- (length_map word_text), Hws; apply length_map).
  clear Hm Hemb Hv. rewrite <- Hws. clear Hws. revert E Hlen.
  induction ws as [|wo ws IH]; intros [|e E] Hlen; try discriminate; simpl.
  - now split.
  - injection Hlen as Hlen. destruct (IH E Hlen) as [H1 H2].
    now rewrite H1, H2.
Qed.

Lemma X7_events_among_words_all_bound_witness :
  let words := [word 1 "a"; word 2 "b"; word 3 "a"; word 4 "c"] in
  let E := [event "b" 1 None; event "c" 2 (Some (5 # 2))] in
  map (fun r => word_text (ts_word r)) (emitted words 7 (map event_json E) no_rows)
    = ["b"; "c"] /\
  map ts_start_time (emitted words 7 (map event_json E) no_rows)
    = [time_of_offset 1; time_of_offset 2].
Proof.
  intros words E.
  refine (X7_events_among_words_all_bound words 7 E no_rows _ _).
  - simpl. apply embeds_later, embeds_here, embeds_later, embeds_here, embeds_nil.
  - repeat constructor; vm_compute; intuition discriminate.
Defined.

(** ** The association *)

Lemma for_pair_with_file (recitation surah file : Z) (r : RecitationSurah) :
  for_pair recitation surah (with_file file r) = for_pair recitation surah r.
Proof. reflexivity. Qed.

Lemma filter_save_file (recitation surah pk file : Z) (table : list RecitationSurah) :
  filter (for_pair recitation surah) (save_file pk file table)
  = save_file pk file (filter (for_pair recitation surah) table).
Proof.
  unfold save_file. induction table as [|x table IH]; simpl; [reflexivity|].
  destruct (rs_pk x =? pk)%Z eqn:Hpk.
  - rewrite for_pair_with_file. destruct (for_pair recitation surah x); simpl;
      [rewrite Hpk, IH; reflexivity | exact IH].
  - destruct (for_pair recitation surah x); simpl; [rewrite Hpk, IH; reflexivity | exact IH].
Qed.

Lemma for_pair_new_row (pk recitation surah : Z) (f : option Z) :
  for_pair recitation surah
    {| rs_pk := pk; rs_recitation := recitation; rs_surah := surah; rs_file_id := f |}
  = true.
Proof. unfold for_pair. simpl. now rewrite !Z.eqb_refl. Qed.

Lemma filter_In_single {A} (f : A -> bool) (l : list A) (x : A) :
  filter f l = [x] -> In x l /\ f x = true.
Proof.
  intro H. apply filter_In. rewrite H. now left.
Qed.

Lemma save_file_absent (pk file : Z) (table : list RecitationSurah) :
  ~ In pk (map rs_pk table) -> save_file pk file table = table.
Proof.
  unfold save_file. induction table as [|x table IH]; simpl; intro H; [reflexivity|].
  destruct (rs_pk x =? pk)%Z eqn:Hx; [apply Z.eqb_eq in Hx; tauto|].
  f_equal. apply IH. tauto.
Qed.

(** With keys that are pairwise distinct, saving the file of a row of one
    pair leaves the rows of the other pairs as they are. *)
Lemma others_unchanged_by_save (recitation surah file : Z)
    (table : list RecitationSurah) (r : RecitationSurah) :
  NoDup (map rs_pk table) -> In r table -> for_pair recitation surah r = true ->
  filter (fun x => negb (for_pair recitation surah x)) (save_file (rs_pk r) file table)
  = filter (fun x => negb (for_pair recitation surah x)) table.
Proof.
  intros Hnd Hin Hr.
  induction table as [|x table IH]; [reflexivity|].
  simpl in Hnd. inversion Hnd as [|? ? Hx Hnd']; subst.
  change (save_file (rs_pk r) file (x :: table))
    with ((if (rs_pk x =? rs_pk r)%Z then with_file file x else x)
          :: save_file (rs_pk r) file table).
  destruct (rs_pk x =? rs_pk r)%Z eqn:Hpk.
  - apply Z.eqb_eq in Hpk.
    assert (x = r) as ->.
    { destruct Hin as [E | Hin]; [exact E|]. exfalso. apply Hx.
      rewrite Hpk. now apply in_map. }
    rewrite (save_file_absent _ _ _ Hx). simpl.
    now rewrite for_pair_with_file, Hr.
  - destruct Hin as [-> | Hin]; [rewrite Z.eqb_refl in Hpk; discriminate|].
    simpl. rewrite (IH Hnd' Hin). reflexivity.
Qed.

(** X14. With at most one association for the pair in the table (and keys
    that are pairwise distinct), the first lines of the task leave exactly one
    association for the pair, the one they return, and leave the rows of
    every other pair as they are: no second association is ever created. *)
Theorem X14_one_association_per_pair (new_pk : Z) (table : list RecitationSurah)
    (recitation surah : Z) (file_obj : File) :
  NoDup (map rs_pk table) ->
  length (filter (for_pair recitation surah) table) <= 1 ->
  exists r table',
    prepare new_pk table recitation surah file_obj = Some (r, table') /\
    filter (for_pair recitation surah) table' = [r] /\
    filter (fun x => negb (for_pair recitation surah x)) table'
    = filter (fun x => negb (for_pair recitation surah x)) table.
Proof.
  intros Hnd Hlen. unfold prepare, get_or_create.
  destruct (filter (for_pair recitation surah) table) as [|r0 [|r1 rest]] eqn:Hf.
  - eexists _, _. simpl. split; [reflexivity|].
    rewrite !filter_app, Hf. simpl. rewrite for_pair_new_row. simpl.
    split; [reflexivity | apply app_nil_r].
  - destruct (filter_In_single _ _ _ Hf) as [Hin Hr0].
    simpl. destruct (file_id_truthy (rs_file_id r0)); simpl.
    + eexists _, _. split; [reflexivity|]. split; [exact Hf | reflexivity].
    + eexists _, _. split; [reflexivity|].
      rewrite filter_save_file, Hf. unfold save_file. simpl. rewrite Z.eqb_refl.
      split; [reflexivity|]. now apply others_unchanged_by_save.
  - simpl in Hlen. lia.
Qed.

Lemma X14_one_association_per_pair_witness :
  let kept := {| rs_pk := 1; rs_recitation := 10; rs_surah := 2; rs_file_id := Some 5%Z |} in
  let bare := {| rs_pk := 2; rs_recitation := 10; rs_surah := 3; rs_file_id := None |} in
  let file_obj := {| file_pk := 8; get_absolute_url := Some "http://audio/8.mp3" |} in
  exists r table',
    prepare 3 [kept; bare] 10 3 file_obj = Some (r, table') /\
    filter (for_pair 10 3) table' = [r] /\
    filter (fun x => negb (for_pair 10 3 x)) table'
    = filter (fun x => negb (for_pair 10 3 x)) [kept; bare].
Proof.
  intros kept bare file_obj.
  refine (X14_one_association_per_pair 3 [kept; bare] 10 3 file_obj _ _).
  - simpl. repeat constructor; simpl; intuition discriminate.
  - simpl. lia.
Defined.

(** X15. An association that already has a file keeps it: handed another
    file, the first lines change no row and return the association as it
    was.  The audio sent for alignment is nevertheless that of the file
    handed over, and the records are tied to the association found. *)
Theorem X15_existing_file_is_kept (str : exn -> string)
    (post : request -> res response) (settings : Settings) (new_pk : Z)
    (recitation_pk surah_pk : Z) (recitation : Recitation) (file_obj : File)
    (words : list Word) (table : list RecitationSurah) (w : world)
    (found : RecitationSurah) :
  filter (for_pair recitation_pk surah_pk) table = [found] ->
  file_id_truthy (rs_file_id found) = true ->
  prepare new_pk table recitation_pk surah_pk file_obj = Some (found, table) /\
  task_from_the_start str post settings new_pk recitation_pk surah_pk recitation
    file_obj words table w
  = (Some (fst (generate_recitation_surah_timestamps_task str post settings
                  recitation (rs_pk found) (get_absolute_url file_obj) words w)),
     table,
     snd (generate_recitation_surah_timestamps_task str post settings
            recitation (rs_pk found) (get_absolute_url file_obj) words w)).
Proof.
  intros Hf Ht.
  assert (prepare new_pk table recitation_pk surah_pk file_obj = Some (found, table)) as Hp.
  { unfold prepare, get_or_create. rewrite Hf. simpl. now rewrite Ht. }
  split; [exact Hp|].
  unfold task_from_the_start. rewrite Hp.
  now destruct (generate_recitation_surah_timestamps_task _ _ _ _ _ _ _ _).
Qed.

Lemma X15_existing_file_is_kept_witness :
  let found := {| rs_pk := 1; rs_recitation := 10; rs_surah := 2; rs_file_id := Some 5%Z |} in
  let file_obj := {| file_pk := 8; get_absolute_url := Some "http://audio/8.mp3" |} in
  prepare 3 [found] 10 2 file_obj = Some (found, [found]).
Proof.
  intros found file_obj.
  refine (proj1 (X15_existing_file_is_kept (fun _ => "error")
                   (fun _ => Raise (RequestException "down"))
                   {| FORCED_ALIGNMENT_API_URL := "http://align";
                      FORCED_ALIGNMENT_SECRET_KEY := None |}
                   3 10 2 {| creator := None; uuid := None |} file_obj
                   [word 1 "a"] [found] no_rows found _ _)); reflexivity.
Defined.

(** X16. The first lines are idempotent: once they have gone through with a
    file whose key is not 0, going through them again for the same pair, with
    this or any other file and whatever new key the database would give,
    changes no row and returns the same association. *)
Theorem X16_prepare_idempotent (new_pk : Z) (table table' : list RecitationSurah)
    (recitation surah : Z) (file_obj : File) (r : RecitationSurah) :
  prepare new_pk table recitation surah file_obj = Some (r, table') ->
  file_pk file_obj <> 0%Z ->
  forall (new_pk' : Z) (other : File),
    prepare new_pk' table' recitation surah other = Some (r, table').
Proof.
  intros Hp Hpk new_pk' other.
  apply Z.eqb_neq in Hpk.
  assert (filter (for_pair recitation surah) table' = [r] /\
          file_id_truthy (rs_file_id r) = true) as [Hf Ht].
  { unfold prepare, get_or_create in Hp.
    destruct (filter (for_pair recitation surah) table) as [|r0 [|r1 rest]] eqn:Hf0;
      [| |discriminate].
    - simpl in Hp. injection Hp as <- <-.
      rewrite filter_app, Hf0. simpl. rewrite for_pair_new_row. simpl.
      now rewrite Hpk.
    - simpl in Hp. destruct (file_id_truthy (rs_file_id r0)) eqn:Ht0; simpl in Hp;
        injection Hp as <- <-.
      + now split.
      + rewrite filter_save_file, Hf0. unfold save_file. simpl.
        rewrite Z.eqb_refl, Hpk. now split. }
  unfold prepare, get_or_create. rewrite Hf. simpl. now rewrite Ht.
Qed.

Lemma X16_prepare_idempotent_witness :
  let file_obj := {| file_pk := 8; get_absolute_url := Some "http://audio/8.mp3" |} in
  let other := {| file_pk := 9; get_absolute_url := Some "http://audio/9.mp3" |} in
  let created := {| rs_pk := 3; rs_recitation := 10; rs_surah := 2; rs_file_id := Some 8%Z |} in
  prepare 4 [created] 10 2 other = Some (created, [created]).
Proof.
  intros file_obj other created.
  refine (X16_prepare_idempotent 3 [] [created] 10 2 file_obj created _ _ 4 other).
  - reflexivity.
  - discriminate.
Defined.

(** X17. With two associations or more for the pair in the table, line 142
    raises before the [try] of line 160: the task ends with that exception,
    which nothing catches, and has written no row, sent no call and left no
    notification. *)
Theorem X17_ambiguous_association_escapes (str : exn -> string)
    (post : request -> res response) (settings : Settings) (new_pk : Z)
    (recitation_pk surah_pk : Z) (recitation : Recitation) (file_obj : File)
    (words : list Word) (table : list RecitationSurah) (w : world) :
  2 <= length (filter (for_pair recitation_pk surah_pk) table) ->
  task_from_the_start str post settings new_pk recitation_pk surah_pk recitation
    file_obj words table w = (None, table, w).
Proof.
  intro H. unfold task_from_the_start, prepare, get_or_create.
  destruct (filter (for_pair recitation_pk surah_pk) table) as [|r0 [|r1 rest]];
    simpl in H; try lia. reflexivity.
Qed.

Lemma X17_ambiguous_association_escapes_witness :
  let one := {| rs_pk := 1; rs_recitation := 10; rs_surah := 2; rs_file_id := None |} in
  let two := {| rs_pk := 2; rs_recitation := 10; rs_surah := 2; rs_file_id := None |} in
  task_from_the_start (fun _ => "error")
    (fun _ => Ok {| status_code := 200; json := Ok (VList []) |})
    {| FORCED_ALIGNMENT_API_URL := "http://align"; FORCED_ALIGNMENT_SECRET_KEY := None |}
    3 10 2 {| creator := Some 3%Z; uuid := None |}
    {| file_pk := 8; get_absolute_url := Some "http://audio/8.mp3" |}
    [word 1 "a"] [one; two] no_rows
  = (None, [one; two], no_rows).
Proof.
  intros one two.
  refine (X17_ambiguous_association_escapes _ _ _ 3 10 2 _ _ _ [one; two] no_rows _).
  simpl. lia.
Defined.

(** ** The import of a translation *)

Section ImportTranslationFacts.

Variable ayah_lookup : value -> value -> res (option Z).
Variables user_id translation_id : Z.

Lemma translate_ayah_sound (default_bismillah surah_number ayah_data : value)
    (row : AyahTranslation) :
  translate_ayah ayah_lookup user_id translation_id default_bismillah surah_number
    ayah_data = Ok (Some row) ->
  row_of_entry ayah_lookup user_id translation_id default_bismillah surah_number
    ayah_data row.
Proof.
  unfold translate_ayah.
  destruct (getitem ayah_data "number") as [n|] eqn:Hn; [|discriminate].
  destruct (ayah_lookup surah_number n) as [[id|]|] eqn:Hl; try discriminate.
  destruct (getitem ayah_data "text") as [text|] eqn:Ht; [|discriminate].
  destruct (get ayah_data "bismillah_text") as [own|] eqn:Ho; [|discriminate].
  intro H. injection H as <-. unfold row_of_entry. simpl.
  split; [reflexivity|]. split; [reflexivity|].
  split; [now exists n|]. split; [exact Ht|].
  exists own. split; [exact Ho|].
  destruct (truthy own); [now left | now right].
Qed.

Lemma translate_ayahs_sound (default_bismillah surah_number : value)
    (entries : list value) :
  forall rows,
    translate_ayahs ayah_lookup user_id translation_id default_bismillah
      surah_number entries = Ok rows ->
    Forall (fun row => exists ayah_data,
              In ayah_data entries /\
              row_of_entry ayah_lookup user_id translation_id default_bismillah
                surah_number ayah_data row) rows.
Proof.
  induction entries as [|a entries IH]; simpl; intros rows H.
  - injection H as <-. apply Forall_nil.
  - destruct (translate_ayah _ _ _ _ _ a) as [row|] eqn:Ha; [|discriminate].
    destruct (translate_ayahs _ _ _ _ _ entries) as [rows'|]; [|discriminate].
    assert (Forall (fun row => exists ayah_data,
              In ayah_data (a :: entries) /\
              row_of_entry ayah_lookup user_id translation_id default_bismillah
                surah_number ayah_data row) rows') as Hs.
    { eapply Forall_impl; [|exact (IH rows' eq_refl)].
      intros r (ad & Hin & Hr). exists ad. split; [now right | exact Hr]. }
    injection H as <-. destruct row as [r|]; [|exact Hs].
    constructor; [|exact Hs]. exists a. split; [now left|].
    exact (translate_ayah_sound _ _ _ _ Ha).
Qed.

Lemma translate_surahs_sound (default_bismillah : value) (surahs : list value) :
  forall rows,
    translate_surahs ayah_lookup user_id translation_id default_bismillah surahs
      = Ok rows ->
    Forall (fun row => exists surah_data surah_number entries entry_list ayah_data,
              In surah_data surahs /\
              getitem surah_data "number" = Ok surah_number /\
              getitem surah_data "ayah_translations" = Ok entries /\
              iterate entries = Ok entry_list /\
              In ayah_data entry_list /\
              row_of_entry ayah_lookup user_id translation_id default_bismillah
                surah_number ayah_data row) rows.
Proof.
  induction surahs as [|sd surahs IH]; simpl; intros rows H.
  - injection H as <-. constructor.
  - destruct (translate_surah _ _ _ _ sd) as [r1|] eqn:Hs; [|discriminate].
    destruct (translate_surahs _ _ _ _ surahs) as [r2|]; [|discriminate].
    injection H as <-. apply Forall_app. split.
    + unfold translate_surah in Hs.
      destruct (getitem sd "number") as [sn|] eqn:Hn; [|discriminate].
      destruct (getitem sd "ayah_translations") as [es|] eqn:He; [|discriminate].
      destruct (iterate es) as [l|] eqn:Hi; [|discriminate].
      eapply Forall_impl; [|exact (translate_ayahs_sound _ _ _ _ Hs)].
      intros r (ad & Hin & Hr). exists sd, sn, es, l, ad.
      split; [now left|]. split; [exact Hn|]. split; [exact He|].
      split; [exact Hi|]. split; [exact Hin | exact Hr].
    + eapply Forall_impl; [|exact (IH r2 eq_refl)].
      intros r (sd' & sn & es & l & ad & Hin & Hrest).
      exists sd', sn, es, l, ad. split; [now right | exact Hrest].
Qed.

(** X18. Every row the import hands to [bulk_create] is the row of an entry
    of the data: it is for the user and the translation of the run, for the
    ayah the dictionary of line 97 gives for the number of the entry's surah
    and the entry's own number (no row is built for an ayah that dictionary
    does not know), and it holds the text of that entry.  Its bismillah is
    the entry's own when that is truthy and the one at the root of the data
    otherwise, so that an empty one of the entry is replaced. *)
Theorem X18_rows_are_for_known_ayahs (translation_data : value)
    (rows : list AyahTranslation) :
  collect_ayah_translations ayah_lookup user_id translation_id translation_data
    = Ok rows ->
  exists default_bismillah,
    get translation_data "bismillah_text" = Ok default_bismillah /\
    Forall (fun row => exists surah_number ayah_data,
              entry_of translation_data surah_number ayah_data /\
              row_of_entry ayah_lookup user_id translation_id default_bismillah
                surah_number ayah_data row) rows.
Proof.
  unfold collect_ayah_translations.
  destruct (get translation_data "bismillah_text") as [d|]; [|discriminate].
  destruct (getitem translation_data "surahs") as [ss|] eqn:Hss; [|discriminate].
  destruct (iterate ss) as [l|] eqn:Hl; [|discriminate].
  intro H. exists d. split; [reflexivity|].
  eapply Forall_impl; [|exact (translate_surahs_sound _ _ _ H)].
  intros r (sd & sn & es & el & ad & Hin & Hn & He & Hi & Hin' & Hr).
  exists sn, ad. split; [|exact Hr].
  exists ss, l, sd, es, el.
  split; [exact Hss|]. split; [exact Hl|]. split; [exact Hin|].
  split; [exact Hn|]. split; [exact He|]. split; [exact Hi | exact Hin'].
Qed.

(** X19. An entry of a surah whose ayah the dictionary does not know is
    passed over, wherever it stands among the entries and whatever else it
    holds: the loop gives what it gives without that entry, rows or
    exception alike, and the text of the entry is not even looked for. *)
Theorem X19_unknown_ayahs_are_skipped (default_bismillah surah_number : value)
    (before after : list value) (ayah_data ayah_number : value) :
  getitem ayah_data "number" = Ok ayah_number ->
  ayah_lookup surah_number ayah_number = Ok None ->
  translate_ayahs ayah_lookup user_id translation_id default_bismillah surah_number
    (before ++ ayah_data :: after)
  = translate_ayahs ayah_lookup user_id translation_id default_bismillah
      surah_number (before ++ after).
Proof.
  intros Hn Hl. induction before as [|a before IH]; simpl.
  - unfold translate_ayah at 1. rewrite Hn, Hl.
    now destruct (translate_ayahs _ _ _ _ _ after).
  - now rewrite IH.
Qed.

(** X20. One entry whose ayah is known and which has no usable text is enough
    for the loop over its surah to raise: no list of rows comes out of it. *)
Theorem X20_known_ayah_without_text_aborts (default_bismillah surah_number : value)
    (entries : list value) (ayah_data ayah_number : value) (ayah_id : Z) (e : exn) :
  In ayah_data entries ->
  getitem ayah_data "number" = Ok ayah_number ->
  ayah_lookup surah_number ayah_number = Ok (Some ayah_id) ->
  getitem ayah_data "text" = Raise e ->
  exists e', translate_ayahs ayah_lookup user_id translation_id default_bismillah
               surah_number entries = Raise e'.
Proof.
  intros Hin Hn Hl Ht.
  induction entries as [|a entries IH]; [destruct Hin|]. simpl.
  destruct (translate_ayah _ _ _ _ _ a) as [row|e0] eqn:Ha; [|now exists e0].
  destruct Hin as [-> | Hin].
  - unfold translate_ayah in Ha. rewrite Hn, Hl, Ht in Ha. discriminate.
  - destruct (IH Hin) as [e' ->]. now exists e'.
Qed.

End ImportTranslationFacts.

Lemma X19_unknown_ayahs_are_skipped_witness :
  let lookup := fun (s a : value) =>
    match a with VNum q => if Qeq_bool q 2 then Ok None else Ok (Some 40%Z)
               | _ => Ok None end in
  translate_ayahs lookup 3 11 VNone (VNum 1)
    [VDict [("number", VNum 1); ("text", VStr "t")];
     VDict [("number", VNum 2)];
     VDict [("number", VNum 3); ("text", VStr "u")]]
  = translate_ayahs lookup 3 11 VNone (VNum 1)
      [VDict [("number", VNum 1); ("text", VStr "t")];
       VDict [("number", VNum 3); ("text", VStr "u")]].
Proof.
  intro lookup.
  refine (X19_unknown_ayahs_are_skipped lookup 3 11 VNone (VNum 1)
            [VDict [("number", VNum 1); ("text", VStr "t")]]
            [VDict [("number", VNum 3); ("text", VStr "u")]]
            (VDict [("number", VNum 2)]) (VNum 2) _ _); reflexivity.
Defined.

Lemma X18_rows_are_for_known_ayahs_witness :
  let lookup := fun (s a : value) =>
    match a with VNum q => if Qeq_bool q 1 then Ok (Some 40%Z) else Ok None
               | _ => Ok None end in
  let data := VDict [("bismillah_text", VStr "B");
                     ("surahs", VList [VDict [("number", VNum 1);
                        ("ayah_translations",
                         VList [VDict [("number", VNum 1); ("text", VStr "t");
                                       ("bismillah_text", VStr EmptyString)]])]])] in
  exists default_bismillah,
    get data "bismillah_text" = Ok default_bismillah /\
    Forall (fun row => exists surah_number ayah_data,
              entry_of data surah_number ayah_data /\
              row_of_entry lookup 3 11 default_bismillah surah_number ayah_data row)
           [{| at_creator_id := 3; at_translation_id := 11; at_ayah_id := 40;
               at_text := VStr "t"; at_bismillah := VStr "B" |}].
Proof.
  intros lookup data.
  refine (X18_rows_are_for_known_ayahs lookup 3 11 data _ _).
  reflexivity.
Defined.

Lemma X20_known_ayah_without_text_aborts_witness :
  exists e',
    translate_ayahs (fun _ _ => Ok (Some 40%Z)) 3 11 VNone (VNum 1)
      [VDict [("number", VNum 1); ("text", VStr "t")]; VDict [("number", VNum 2)]]
    = Raise e'.
Proof.
  refine (X20_known_ayah_without_text_aborts (fun _ _ => Ok (Some 40%Z)) 3 11
            VNone (VNum 1) _ (VDict [("number", VNum 2)]) (VNum 2) 40
            (KeyError "text") _ _ _ _).
  - right. left. reflexivity.
  - reflexivity.
  - reflexivity.
  - reflexivity.
Defined.

(** X21. The import of a translation is all or nothing.  When it returns, it
    has added one translation, the rows the loops collected and one success
    notification; when anything in it raises, the exception leaves the task,
    nothing is caught or notified, and the tables are as they were before:
    the translation row written on line 88 is undone. *)
Theorem X21_import_translation_all_or_nothing
    (ayah_lookup : value -> value -> res (option Z))
    (user_id translation_id translator_id mushaf_id : Z) (translation_uuid : string)
    (translation_data : value) (s : library) :
  match import_translation_task ayah_lookup user_id translation_id translator_id
          mushaf_id translation_uuid translation_data s with
  | (Ok msg, s') =>
      exists (t : Translation) (rows : list AyahTranslation) (n : Notification),
        collect_ayah_translations ayah_lookup user_id translation_id translation_data
          = Ok rows /\
        translations s' = (translations s ++ [t])%list /\
        tr_id t = translation_id /\
        ayah_translations s' = (ayah_translations s ++ rows)%list /\
        import_notifications s' = (import_notifications s ++ [n])%list /\
        n_message_type n = MESSAGE_TYPE_SUCCESS
  | (Raise e, s') => s' = s
  end.
Proof.
  unfold import_translation_task, atomic.
  destruct (getitem translation_data "source") as [source|e]; [|reflexivity].
  destruct (getitem translation_data "language") as [language|e]; [|reflexivity].
  destruct (collect_ayah_translations ayah_lookup user_id translation_id translation_data)
    as [rows|e]; [|reflexivity].
  eexists _, rows, _. simpl. repeat split; reflexivity.
Qed.

(** ** The import of a mushaf *)

Lemma each_Forall2 {A B} (f : A -> res B) (l : list A) :
  forall bs, each f l = Ok bs -> Forall2 (fun a b => f a = Ok b) l bs.
Proof.
  induction l as [|a l IH]; simpl; intros bs H.
  - injection H as <-. constructor.
  - unfold and_then in H. destruct (f a) as [b|] eqn:Ha; [|discriminate].
    destruct (each f l) as [bs'|]; [|discriminate].
    injection H as <-. constructor; [exact Ha | now apply IH].
Qed.

Lemma each_In {A B} (f : A -> res B) (l : list A) (bs : list B) (a : A) :
  each f l = Ok bs -> In a l -> exists b, f a = Ok b.
Proof.
  intros H Hin. apply each_Forall2 in H.
  induction H as [|x b l bs Hx _ IH]; [destruct Hin|].
  destruct Hin as [-> | Hin]; [now exists b | now apply IH].
Qed.

Lemma each_of_Forall2 {A B} (f : A -> res B) (l : list A) (bs : list B) :
  Forall2 (fun a b => f a = Ok b) l bs -> each f l = Ok bs.
Proof.
  induction 1 as [|a b l bs Ha _ IH]; simpl; [reflexivity|].
  unfold and_then. now rewrite Ha, IH.
Qed.

Lemma all_str_strings (texts : list string) : all_str (map VStr texts) = Ok texts.
Proof.
  induction texts as [|t texts IH]; simpl; [reflexivity|].
  unfold and_then. now rewrite IH.
Qed.

Lemma py_len_app (a b : string) : py_len (a ++ b) = py_len a + py_len b.
Proof.
  induction a as [|c a IH]; simpl; [reflexivity|]. rewrite IH. lia.
Qed.

Lemma py_len_join (texts : list string) :
  py_len (join " " texts) = list_sum (map py_len texts) + (length texts - 1).
Proof.
  induction texts as [|t [|u texts] IH]; [reflexivity | simpl; lia |].
  change (join " " (t :: u :: texts)) with (t ++ " " ++ join " " (u :: texts)).
  rewrite !py_len_app, IH. simpl. lia.
Qed.

(** X22. The length stored with an ayah whose words all have a text that is
    a string is the number of characters of those texts plus one for each
    space between two words: the sum of the lengths plus the number of words
    less one, and 0 for an ayah with an empty list of words. *)
Theorem X22_ayah_length (d : list (string * value)) (words : list value)
    (texts : list string) :
  lookup d "words" = Some (VList words) ->
  Forall2 (fun word t => getitem word "text" = Ok (VStr t)) words texts ->
  ayah_length (VDict d)
  = Ok (list_sum (map py_len texts) + (length texts - 1)).
Proof.
  intros Hw Ht. unfold ayah_length, has_words, and_then. rewrite Hw. simpl.
  rewrite Hw. unfold words_text, and_then. simpl.
  assert (each (fun word => getitem word "text") words = Ok (map VStr texts)) as ->.
  { apply each_of_Forall2. clear Hw.
    induction Ht as [|w t ws ts Hwt _ IH]; simpl; constructor; assumption. }
  rewrite all_str_strings. now rewrite py_len_join.
Qed.

Lemma X22_ayah_length_witness :
  ayah_length
    (VDict [("number", VNum 1);
            ("words", VList [VDict [("text", VStr "ab")]; VDict [("text", VStr "cde")]])])
  = Ok 6.
Proof.
  refine (X22_ayah_length _ _ ["ab"; "cde"] _ _).
  - reflexivity.
  - repeat constructor.
Defined.

Section ImportMushafFacts.

Variables (user_id mushaf_pk : Z) (mushaf_uuid : string).
Variable surahs_by_number : list SurahRow -> value -> res Z.
Variable ayahs_by_surah_and_number : list AyahRow -> value -> value -> res Z.
Variable format : value -> string.

Lemma import_block_returns (quran_data mushaf_data : value) (s s' : mushaf_store)
    (mushaf : MushafRow) :
  import_block user_id mushaf_pk surahs_by_number ayahs_by_surah_and_number
    quran_data mushaf_data s = (Ok mushaf, s') ->
  exists surah_objs ayah_objs word_objs,
    surah_objs_of user_id mushaf_pk quran_data = Ok surah_objs /\
    ayah_objs_of user_id surahs_by_number surah_objs quran_data = Ok ayah_objs /\
    word_objs_of user_id ayahs_by_surah_and_number ayah_objs quran_data = Ok word_objs /\
    s' = {| mushafs := mushafs s ++ [mushaf];
            surahs := surahs s ++ surah_objs;
            ayahs := ayahs s ++ ayah_objs;
            word_rows := word_rows s ++ word_objs;
            mushaf_notifications := mushaf_notifications s |}.
Proof.
  unfold import_block.
  destruct (and_then (getitem mushaf_data "name") _) as [m|]; [|discriminate].
  destruct (surah_objs_of user_id mushaf_pk quran_data) as [so|] eqn:H1; [|discriminate].
  destruct (ayah_objs_of user_id surahs_by_number so quran_data) as [ao|] eqn:H2;
    [|discriminate].
  destruct (word_objs_of user_id ayahs_by_surah_and_number ao quran_data) as [wo|] eqn:H3;
    [|discriminate].
  intro H. injection H as <- <-. exists so, ao, wo. simpl.
  repeat split; assumption.
Qed.

(** X23. An ayah whose ['words'] cannot be read (the key is missing, say) is
    enough for the whole import to fail: the loop of lines 62 to 66 reads the
    words of every ayah, although line 46 lets such an ayah through with a
    length of 0.  The import then raises and leaves every table as it was. *)
Theorem X23_ayah_without_words_aborts (quran_data : value) (s : mushaf_store)
    (entries surah_data ayah_entries ayah : value) (surah_list ayah_list : list value)
    (e : exn) :
  getitem quran_data "surahs" = Ok entries ->
  iterate entries = Ok surah_list ->
  In surah_data surah_list ->
  getitem surah_data "ayahs" = Ok ayah_entries ->
  iterate ayah_entries = Ok ayah_list ->
  In ayah ayah_list ->
  getitem ayah "words" = Raise e ->
  exists e',
    import_mushaf_task user_id mushaf_pk mushaf_uuid surahs_by_number
      ayahs_by_surah_and_number format quran_data s = (Raise e', s).
Proof.
  intros Hs Hsl Hsd Ha Hal Hay Hw.
  unfold import_mushaf_task.
  destruct (getitem quran_data "mushaf") as [mushaf_data|e0]; [|now exists e0].
  unfold atomic.
  destruct (import_block _ _ _ _ _ _ s) as [[mushaf|e0] s'] eqn:Hb; [|now exists e0].
  exfalso.
  destruct (import_block_returns _ _ _ _ _ Hb) as (so & ao & wo & _ & _ & Hwo & _).
  unfold word_objs_of, and_then in Hwo. rewrite Hs, Hsl in Hwo.
  destruct (each (surah_words user_id ayahs_by_surah_and_number ao) surah_list)
    as [rows|] eqn:He; [|discriminate].
  destruct (each_In _ _ _ _ He Hsd) as [r Hr].
  unfold surah_words, and_then in Hr. rewrite Ha, Hal in Hr.
  destruct (each (ayah_words user_id ayahs_by_surah_and_number ao surah_data) ayah_list)
    as [rows'|] eqn:He'; [|discriminate].
  destruct (each_In _ _ _ _ He' Hay) as [r' Hr'].
  unfold ayah_words, and_then in Hr'.
  destruct (getitem surah_data "number"); [|discriminate].
  destruct (getitem ayah "number"); [|discriminate].
  destruct (ayahs_by_surah_and_number ao a a0); [|discriminate].
  rewrite Hw in Hr'. discriminate.
Qed.

(** X24. The import of a mushaf is all or nothing.  When it returns, it has
    added one mushaf, the rows of the three loops, each made from the rows
    stored before it, and one success notification; when anything raises,
    the exception leaves the task, nothing is notified and every table is as
    it was before. *)
Theorem X24_import_mushaf_all_or_nothing (quran_data : value) (s : mushaf_store) :
  match import_mushaf_task user_id mushaf_pk mushaf_uuid surahs_by_number
          ayahs_by_surah_and_number format quran_data s with
  | (Ok msg, s') =>
      exists mushaf surah_objs ayah_objs word_objs n,
        surah_objs_of user_id mushaf_pk quran_data = Ok surah_objs /\
        ayah_objs_of user_id surahs_by_number surah_objs quran_data = Ok ayah_objs /\
        word_objs_of user_id ayahs_by_surah_and_number ayah_objs quran_data
          = Ok word_objs /\
        mushafs s' = (mushafs s ++ [mushaf])%list /\
        surahs s' = (surahs s ++ surah_objs)%list /\
        ayahs s' = (ayahs s ++ ayah_objs)%list /\
        word_rows s' = (word_rows s ++ word_objs)%list /\
        mushaf_notifications s' = (mushaf_notifications s ++ [n])%list /\
        n_message_type n = MESSAGE_TYPE_SUCCESS
  | (Raise e, s') => s' = s
  end.
Proof.
  unfold import_mushaf_task.
  destruct (getitem quran_data "mushaf") as [mushaf_data|e0]; [|reflexivity].
  unfold atomic.
  destruct (import_block _ _ _ _ _ _ s) as [[mushaf|e0] s'] eqn:Hb; [|reflexivity].
  destruct (import_block_returns _ _ _ _ _ Hb) as (so & ao & wo & H1 & H2 & H3 & ->).
  eexists mushaf, so, ao, wo, _. simpl. repeat split; assumption || reflexivity.
Qed.

Lemma all_str_are_strings (l : list value) :
  forall strs, all_str l = Ok strs -> Forall (fun v => exists t, v = VStr t) l.
Proof.
  induction l as [|v l IH]; simpl; intros strs H; [constructor|].
  destruct v; try discriminate. unfold and_then in H.
  destruct (all_str l) as [ss|]; [|discriminate].
  constructor; [now eexists | now apply (IH ss)].
Qed.

Lemma Forall_concat {A} (P : A -> Prop) (ls : list (list A)) :
  Forall (Forall P) ls -> Forall P (concat ls).
Proof.
  induction 1 as [|l ls Hl _ IH]; simpl; [constructor|].
  apply Forall_app. now split.
Qed.

(** The words of an ayah that went through both loops are strings. *)
Lemma ayah_words_are_strings (stored : list AyahRow) (surah : Z)
    (surah_data ayah : value) (row : AyahRow) (rows : list WordRow) :
  make_ayah user_id surah ayah = Ok row ->
  ayah_words user_id ayahs_by_surah_and_number stored surah_data ayah = Ok rows ->
  Forall (fun w => exists t, w_text w = VStr t) rows.
Proof.
  unfold make_ayah, ayah_words, and_then. intros Hm Hw.
  destruct (ayah_length ayah) as [n|] eqn:Hl; [|discriminate]. clear Hm.
  destruct (getitem surah_data "number"); [|discriminate].
  destruct (getitem ayah "number"); [|discriminate].
  destruct (ayahs_by_surah_and_number stored a a0); [|discriminate].
  destruct (getitem ayah "words") as [ws|] eqn:Hws; [|discriminate].
  destruct (iterate ws) as [l|] eqn:Hit; [|discriminate].
  unfold ayah_length, and_then in Hl.
  destruct ayah as [| | | | | | |d]; try discriminate.
  unfold getitem in Hws. simpl in Hl.
  destruct (lookup d "words") as [x|] eqn:Hd; [|discriminate].
  injection Hws as <-.
  unfold words_text, and_then in Hl. rewrite Hit in Hl.
  destruct (each (fun word => getitem word "text") l) as [texts|] eqn:Ht; [|discriminate].
  destruct (all_str texts) as [strs|] eqn:Hs; [|discriminate].
  apply all_str_are_strings in Hs. apply each_Forall2 in Ht. apply each_Forall2 in Hw.
  clear Hl Hit Hd. revert rows Hw Hs.
  induction Ht as [|word text l texts Hword _ IH]; intros rows Hw Hs;
    inversion Hw as [|? w ? rows' Hrow Hrest]; subst; constructor.
  - rewrite Hword in Hrow. injection Hrow as <-. simpl.
    inversion Hs; subst. assumption.
  - inversion Hs; subst. now apply IH.
Qed.

(** X25. After an import that returned, every word row holds a text that is
    a string: the loop that builds the word rows does not look at the type
    of a text, but the length computed for the ayah on line 47 has already
    refused any other. *)
Theorem X25_imported_words_are_strings (quran_data : value)
    (stored_surahs : list SurahRow) (stored_ayahs ayah_objs : list AyahRow)
    (word_objs : list WordRow) :
  ayah_objs_of user_id surahs_by_number stored_surahs quran_data = Ok ayah_objs ->
  word_objs_of user_id ayahs_by_surah_and_number stored_ayahs quran_data
    = Ok word_objs ->
  Forall (fun w => exists t, w_text w = VStr t) word_objs.
Proof.
  unfold ayah_objs_of, word_objs_of, and_then. intros Ha Hw.
  destruct (getitem quran_data "surahs") as [entries|]; [|discriminate].
  destruct (iterate entries) as [surah_list|]; [|discriminate].
  destruct (each (surah_ayahs user_id surahs_by_number stored_surahs) surah_list)
    as [arows|] eqn:Hea; [|discriminate].
  destruct (each (surah_words user_id ayahs_by_surah_and_number stored_ayahs) surah_list)
    as [wrows|] eqn:Hew; [|discriminate].
  injection Hw as <-. clear Ha. apply Forall_concat.
  apply each_Forall2 in Hea. apply each_Forall2 in Hew.
  revert wrows Hew.
  induction Hea as [|sd ar surah_list arows Hsa _ IH]; intros wrows Hew;
    inversion Hew as [|? wr ? wrows' Hsw Hrest]; subst; constructor;
    [|now apply IH].
  clear IH Hrest Hew.
  unfold surah_ayahs, surah_words, and_then in Hsa, Hsw.
  destruct (getitem sd "number") as [number|]; [|discriminate].
  destruct (surahs_by_number stored_surahs number) as [surah|]; [|discriminate].
  destruct (getitem sd "ayahs") as [aentries|]; [|discriminate].
  destruct (iterate aentries) as [ayah_list|]; [|discriminate].
  destruct (each (ayah_words user_id ayahs_by_surah_and_number stored_ayahs sd) ayah_list)
    as [rows|] eqn:Hr; [|discriminate].
  injection Hsw as <-. apply Forall_concat.
  apply each_Forall2 in Hsa. apply each_Forall2 in Hr.
  revert rows Hr.
  induction Hsa as [|ayah row ayah_list ar Hrow _ IH]; intros rows Hr;
    inversion Hr as [|? r ? rows' Har Hrest]; subst; constructor;
    [|now apply IH].
  exact (ayah_words_are_strings _ _ _ _ _ _ Hrow Har).
Qed.

End ImportMushafFacts.

Lemma X23_ayah_without_words_aborts_witness :
  let ayah := VDict [("number", VNum 1); ("sajdah", VNone);
                     ("is_bismillah", VBool false); ("bismillah_text", VNone)] in
  let quran_data :=
    VDict [("mushaf", VDict [("name", VStr "m"); ("short_name", VStr "m");
                             ("source", VStr "s")]);
           ("surahs", VList [VDict [("number", VNum 1); ("name", VStr "n");
                                    ("period", VNone); ("ayahs", VList [ayah])]])] in
  let empty := {| mushafs := []; surahs := []; ayahs := []; word_rows := [];
                  mushaf_notifications := [] |} in
  exists e',
    import_mushaf_task 3 1 "u-1" (fun _ _ => Ok 1%Z) (fun _ _ _ => Ok 1%Z)
      (fun _ => "m") quran_data empty = (Raise e', empty).
Proof.
  intros ayah quran_data empty.
  refine (X23_ayah_without_words_aborts 3 1 "u-1" _ _ _ quran_data empty
            _ _ _ ayah _ _ (KeyError "words") _ _ _ _ _ _ _).
  - reflexivity.
  - reflexivity.
  - left. reflexivity.
  - reflexivity.
  - reflexivity.
  - left. reflexivity.
  - reflexivity.
Defined.

Lemma X25_imported_words_are_strings_witness :
  let ayah := VDict [("number", VNum 1); ("sajdah", VNone);
                     ("is_bismillah", VBool false); ("bismillah_text", VNone);
                     ("words", VList [VDict [("text", VStr "ab")]])] in
  let quran_data :=
    VDict [("surahs", VList [VDict [("number", VNum 1); ("ayahs", VList [ayah])]])] in
  Forall (fun w => exists t, w_text w = VStr t)
         [{| w_ayah := 5; w_text := VStr "ab"; w_creator_id := 3 |}].
Proof.
  intros ayah quran_data.
  refine (X25_imported_words_are_strings 3 (fun _ _ => Ok 4%Z) (fun _ _ _ => Ok 5%Z)
            quran_data [] [] _ _ _ _); [vm_compute|]; reflexivity.
Defined.
